(** * SortSense backend: invoice text heuristic and KPI aggregator

    A shallow embedding of [src/backend/app.py] (and of the invoice
    endpoint of the packaged copy under [.aws-sam/build/ApiFunction]).

    Modelling conventions.
    - A Python [str] is a [list ascii]; the texts covered are those whose
      code points are below 256.  Character classes follow the [re] module
      on [str] patterns for these code points.  Above them, [re.I] lets the
      letters i, s and k of a pattern, and so the class [[A-Za-z ]], match
      U+0130, U+0131, U+017F and U+212A as well; no statement below speaks
      of such texts.
    - A Python [float] is the rational number it denotes ([Q]); binary
      rounding is not modelled.  Values produced by [float()] are kept in
      lowest terms, so that they can be compared with [=].
    - A raised exception is the [Raise] branch of [result]. *)

From Stdlib Require Import List Ascii String ZArith QArith Qreduction Bool Lia.
From Stdlib Require Import DecimalString.
Import ListNotations.


Local Open Scope nat_scope.

(** ** Exceptions *)

Inductive exn : Type :=
| ValueError
| TypeError
| KeyError
| AttributeError
| ZeroDivisionError
| ExternalError (service : string).

Inductive result (A : Type) : Type :=
| Ok (a : A)
| Raise (e : exn).

Arguments Ok {A} a.
Arguments Raise {A} e.

Definition bind {A B : Type} (c : result A) (f : A -> result B) : result B :=
  match c with
  | Ok a => f a
  | Raise e => Raise e
  end.

(** [try: ... except Exception: ...] *)
Definition try_except {A : Type} (c : result A) (h : exn -> result A) : result A :=
  match c with
  | Ok a => Ok a
  | Raise e => h e
  end.

Declare Scope result_scope.
Delimit Scope result_scope with result.
Notation "x <- c ;; k" := (bind c (fun x => k))
  (at level 61, c at next level, right associativity) : result_scope.
Notation "' p <- c ;; k" := (bind c (fun x => let p := x in k))
  (at level 61, p pattern, c at next level, right associativity) : result_scope.

Definition returns_normally {A : Type} (c : result A) : Prop :=
  exists a, c = Ok a.

(** ** Strings *)

Definition text : Type := list ascii.

Definition str (s : string) : text := list_ascii_of_string s.

Definition code (c : ascii) : nat := nat_of_ascii c.

Definition between (lo hi : nat) (c : ascii) : bool :=
  (lo <=? code c) && (code c <=? hi).

(** [\d] on [str]: the decimal digits (no other code point below 256 is
    in category Nd). *)
Definition is_digit (c : ascii) : bool := between 48 57 c.

Definition is_ascii_letter (c : ascii) : bool :=
  between 65 90 c || between 97 122 c.

(** [\w] on [str]: alphanumeric code points and the underscore. *)
Definition is_word (c : ascii) : bool :=
  is_ascii_letter c || is_digit c || (code c =? 95)
  || (code c =? 170) || (code c =? 178) || (code c =? 179) || (code c =? 181)
  || (code c =? 185) || (code c =? 186) || between 188 190 c
  || between 192 214 c || between 216 246 c || between 248 255 c.

(** [\s] on [str], which is also what [str.strip()] removes. *)
Definition is_space (c : ascii) : bool :=
  between 9 13 c || between 28 32 c || (code c =? 133) || (code c =? 160).

(** [.] without DOTALL. *)
Definition not_newline (c : ascii) : bool := negb (code c =? 10).

Definition lower (c : ascii) : ascii :=
  if between 65 90 c then ascii_of_nat (code c + 32) else c.

Definition eqc (a b : ascii) : bool := Ascii.eqb a b.

(** Literal comparison under [re.I]. *)
Definition eqc_ci (a b : ascii) : bool := Ascii.eqb (lower a) (lower b).

Fixpoint lstrip (s : text) : text :=
  match s with
  | c :: s' => if is_space c then lstrip s' else s
  | [] => []
  end.

(** [str.strip()] *)
Definition strip (s : text) : text := rev (lstrip (rev (lstrip s))).

(** ** Regular expressions ([re]) *)

Module Re.

(** The fragment of the pattern language that [app.py] uses.  Stars range
    over one-character classes only. *)
Inductive regex : Type :=
| Eps
| Chr (p : ascii -> bool)
| Seq (a b : regex)
| Alt (a b : regex)
| Star (greedy : bool) (p : ascii -> bool)
| Group (n : nat) (r : regex).

Definition captures : Type := list (nat * text).

(** A way to match: the text consumed, the text left, the groups set. *)
Definition way : Type := (text * text * captures)%type.

Fixpoint star_greedy (p : ascii -> bool) (s : text) : list (text * text) :=
  match s with
  | c :: s' =>
      if p c
      then map (fun wr => (c :: fst wr, snd wr)) (star_greedy p s') ++ [([], s)]
      else [([], s)]
  | [] => [([], [])]
  end.

Fixpoint star_lazy (p : ascii -> bool) (s : text) : list (text * text) :=
  match s with
  | c :: s' =>
      if p c
      then ([], s) :: map (fun wr => (c :: fst wr, snd wr)) (star_lazy p s')
      else [([], s)]
  | [] => [([], [])]
  end.

(** All the ways [r] matches at the head of [s], in the order in which a
    backtracking matcher tries them; the matcher's answer is the first. *)
Fixpoint ways (r : regex) (s : text) (g : captures) : list way :=
  match r with
  | Eps => [([], s, g)]
  | Chr p =>
      match s with
      | c :: s' => if p c then [([c], s', g)] else []
      | [] => []
      end
  | Seq a b =>
      flat_map
        (fun wa : way =>
           let '(w1, s1, g1) := wa in
           map (fun wb : way => let '(w2, s2, g2) := wb in (w1 ++ w2, s2, g2))
               (ways b s1 g1))
        (ways a s g)
  | Alt a b => ways a s g ++ ways b s g
  | Star greedy p =>
      map (fun wr => (fst wr, snd wr, g))
          ((if greedy then star_greedy else star_lazy) p s)
  | Group n r =>
      map (fun wa : way => let '(w, s', g') := wa in (w, s', (n, w) :: g'))
          (ways r s g)
  end.

Record Match : Type := mkMatch {
  m_start : nat;
  m_whole : text;
  m_groups : captures
}.

Fixpoint lookup (n : nat) (g : captures) : option text :=
  match g with
  | (k, w) :: g' => if k =? n then Some w else lookup n g'
  | [] => None
  end.

(** [m.group(n)] for [n >= 1]; [None] when the group took no part. *)
Definition group (mt : Match) (n : nat) : option text := lookup n (m_groups mt).

Definition match_at (r : regex) (i : nat) (s : text) : option Match :=
  match ways r s [] with
  | (w, _, g) :: _ => Some (mkMatch i w g)
  | [] => None
  end.

Fixpoint search_from (r : regex) (i : nat) (s : text) : option Match :=
  match match_at r i s with
  | Some mt => Some mt
  | None =>
      match s with
      | _ :: s' => search_from r (S i) s'
      | [] => None
      end
  end.

(** [re.search(r, s)]: the leftmost start that matches. *)
Definition search (r : regex) (s : text) : option Match := search_from r 0 s.

(** Pattern syntax. *)
Definition lit (ci : bool) (c : ascii) : regex :=
  Chr (if ci then eqc_ci c else eqc c).

Fixpoint lits (ci : bool) (w : text) : regex :=
  match w with
  | [] => Eps
  | c :: w' => Seq (lit ci c) (lits ci w')
  end.

Definition word (ci : bool) (w : string) : regex := lits ci (str w).

Definition plus (p : ascii -> bool) : regex := Seq (Chr p) (Star true p).
Definition opt (r : regex) : regex := Alt r Eps.

End Re.

Import Re.

(** ** float() *)

Definition digit_val (c : ascii) : Z := Z.of_nat (code c - 48).

Definition digits_val (s : text) : Z :=
  fold_left (fun acc c => (acc * 10 + digit_val c)%Z) s 0%Z.

Fixpoint split_dot (s : text) : text * option text :=
  match s with
  | [] => ([], None)
  | c :: s' =>
      if code c =? 46 then ([], Some s')
      else let '(a, b) := split_dot s' in (c :: a, b)
  end.

Definition decimal (ip fp : text) : Q :=
  Qred (Qmake (digits_val ip * 10 ^ Z.of_nat (List.length fp) + digits_val fp)
              (Z.to_pos (10 ^ Z.of_nat (List.length fp)))).

(** [float(s)] on unsigned decimal literals [d*], [d*.d*] with at least one
    digit.  The groups handed to it by [parse_invoice_text] always have this
    shape ([grab_returns] below); every other string is answered with
    [ValueError] here, although [float] accepts further syntax (signs,
    exponents, blanks). *)
Definition pyfloat (s : text) : result Q :=
  let '(ip, rest) := split_dot s in
  let fp := match rest with Some f => f | None => [] end in
  if forallb is_digit ip && forallb is_digit fp
     && negb (Nat.eqb (List.length ip + List.length fp) 0)
  then Ok (decimal ip fp)
  else Raise ValueError.

(** Truth value of a float: non-zero. *)
Definition truthy (q : Q) : bool := negb (Qeq_bool q 0).

(** ** Invoice Text Heuristic *)

Record InvoiceLine : Type := mkLine {
  line_type : string;
  weight_kg : Q;
  cost_usd : Q
}.

Record Parsed : Type := mkParsed {
  period : text;
  vendor : text;
  lines : list InvoiceLine
}.

(** [(20\d{2}[-/\.]\d{1,2})] *)
Definition period_sep (c : ascii) : bool :=
  (code c =? 45) || (code c =? 47) || (code c =? 46).

Definition period_re : regex :=
  Group 1 (Seq (word false "20")
          (Seq (Chr is_digit) (Seq (Chr is_digit)
          (Seq (Chr period_sep)
          (Seq (Chr is_digit) (opt (Chr is_digit))))))).

(** [(Invoice|Vendor)[:\s]+([A-Za-z ]+)] with [re.I] *)
Definition colon_or_space (c : ascii) : bool := (code c =? 58) || is_space c.
Definition letter_or_blank (c : ascii) : bool :=
  is_ascii_letter c || (code c =? 32).

Definition vendor_re : regex :=
  Seq (Group 1 (Alt (word true "Invoice") (word true "Vendor")))
      (Seq (plus colon_or_space) (Group 2 (plus letter_or_blank))).

(** [(\d+(?:\.\d+)?)] *)
Definition is_dot (c : ascii) : bool := code c =? 46.
Definition is_dollar (c : ascii) : bool := code c =? 36.

Definition number_re : regex :=
  Group 1 (Seq (plus is_digit) (opt (Seq (Chr is_dot) (plus is_digit)))).

(** [\s?(?:kg|tons?)] with [re.I] *)
Definition kg_tail : regex :=
  Seq (opt (Chr is_space))
      (Alt (word true "kg") (Seq (word true "ton") (opt (lit true "s"%char)))).

(** [kind + r".*?(\d+(?:\.\d+)?)\s?(?:kg|tons?)"] with [re.I] *)
Definition kg_re (kind : regex) : regex :=
  Seq kind (Seq (Star false not_newline) (Seq number_re kg_tail)).

(** [kind + r".*?\$?\s?(\d+(?:\.\d+)?)"] with [re.I] *)
Definition usd_re (kind : regex) : regex :=
  Seq kind
      (Seq (Star false not_newline)
      (Seq (opt (Chr is_dollar))
      (Seq (opt (Chr is_space)) number_re))).

(** [float(m.group(1)) if m else 0.0] *)
Definition float_group1 (m : option Match) : result Q :=
  match m with
  | Some mt =>
      match group mt 1 with
      | Some w => pyfloat w
      | None => Raise TypeError
      end
  | None => Ok 0%Q
  end.

Definition grab (txt : text) (kind : regex) : result (Q * Q) :=
  (kg <- float_group1 (search (kg_re kind) txt) ;;
   usd <- float_group1 (search (usd_re kind) txt) ;;
   Ok (kg, usd))%result.

(** [recycl\w+], [landfill], [compost\w+] *)
Definition recycl_kind : regex := Seq (word true "recycl") (plus is_word).
Definition landfill_kind : regex := word true "landfill".
Definition compost_kind : regex := Seq (word true "compost") (plus is_word).

Definition append_if (b : bool) (l : InvoiceLine) (ls : list InvoiceLine) :=
  if b then ls ++ [l] else ls.

Definition fallback_period : text := str "2025-09".
Definition fallback_vendor : text := str "Unknown Hauler".

Definition parse_invoice_text (txt : text) : result Parsed :=
  (let period_m := search period_re txt in
   let vendor_m := search vendor_re txt in
   '(rkg, rusd) <- grab txt recycl_kind ;;
   '(lkg, lusd) <- grab txt landfill_kind ;;
   '(ckg, cusd) <- grab txt compost_kind ;;
   let lines0 := [] in
   let lines1 := append_if (truthy rkg) (mkLine "recycling" rkg rusd) lines0 in
   let lines2 := append_if (truthy ckg) (mkLine "compost" ckg cusd) lines1 in
   let lines3 := append_if (truthy lkg) (mkLine "landfill" lkg lusd) lines2 in
   (* group 1 spans the whole pattern: it is set whenever there is a match *)
   p <- match period_m with
        | Some mt =>
            match group mt 1 with
            | Some w => Ok w
            | None => Raise TypeError
            end
        | None => Ok fallback_period
        end ;;
   v <- match vendor_m with
        | Some mt =>
            match group mt 2 with
            | Some w => Ok (strip w)
            | None => Raise AttributeError
            end
        | None => Ok fallback_vendor
        end ;;
   Ok (mkParsed p v lines3))%result.



(** ** KPI Aggregator *)

Record KpiState : Type := mkKpi {
  recycle_kg : Q;
  compost_kg : Q;
  landfill_kg : Q;
  diversion_rate : Q
}.

(** The initial value of [mock_kpis], and the value [reset_kpis] installs. *)
Definition kpi_zero : KpiState := mkKpi 0 0 0 0.

Definition Qltb (a b : Q) : bool := negb (Qle_bool b a).

(** Float division: a zero divisor raises. *)
Definition pydiv (a b : Q) : result Q :=
  if Qeq_bool b 0 then Raise ZeroDivisionError else Ok (a / b)%Q.

(** The [if]/[elif] chain in the loop of [upload_image]. *)
Definition add_route (st : KpiState) (route : string) (weight : Q) : KpiState :=
  if String.eqb route "recycle" then
    mkKpi (recycle_kg st + weight) (compost_kg st) (landfill_kg st) (diversion_rate st)
  else if String.eqb route "compost" then
    mkKpi (recycle_kg st) (compost_kg st + weight) (landfill_kg st) (diversion_rate st)
  else if String.eqb route "landfill" then
    mkKpi (recycle_kg st) (compost_kg st) (landfill_kg st + weight) (diversion_rate st)
  else st.

(** The [if]/[elif] chain in the loop of [upload_invoice]. *)
Definition add_line_type (st : KpiState) (lt : string) (weight : Q) : KpiState :=
  if String.eqb lt "recycling" then
    mkKpi (recycle_kg st + weight) (compost_kg st) (landfill_kg st) (diversion_rate st)
  else if String.eqb lt "compost" then
    mkKpi (recycle_kg st) (compost_kg st + weight) (landfill_kg st) (diversion_rate st)
  else if String.eqb lt "landfill" then
    mkKpi (recycle_kg st) (compost_kg st) (landfill_kg st + weight) (diversion_rate st)
  else st.

Definition total_waste (st : KpiState) : Q :=
  (recycle_kg st + compost_kg st + landfill_kg st)%Q.

(** The "Calculate diversion rate" block shared by both upload handlers. *)
Definition recompute_diversion (st : KpiState) : result KpiState :=
  if Qltb 0 (total_waste st) then
    (d <- pydiv (recycle_kg st + compost_kg st) (total_waste st) ;;
     Ok (mkKpi (recycle_kg st) (compost_kg st) (landfill_kg st) d))%result
  else Ok (mkKpi (recycle_kg st) (compost_kg st) (landfill_kg st) 0).

(** ** External collaborators *)

Record WasteItem : Type := mkItem {
  label : string;
  route : string;
  confidence : Q;
  est_weight_kg : option Q;
  tip : option string;
  source : option string
}.

Record Upload : Type := mkUpload {
  filename : text;
  content_type : text;
  body : text
}.

Record Block : Type := mkBlock {
  BlockType : string;
  Text : option text
}.

Inductive Prompt : Type :=
| TipPrompt (label route : string)
| KpiPrompt (data : KpiState).

(** What the outside world answers during one request.  Each call either
    returns or raises. *)
Record Ext : Type := mkExt {
  now : Z;
  s3_put_object : text -> text -> text -> result unit;
  textract_detect_document_text : text -> result (list Block);
  sf_connect : result unit;
  sf_execute_waste_event : string -> WasteItem -> result unit;
  sf_execute_invoice_line : text -> text -> InvoiceLine -> result unit;
  WRITER_API_KEY : text;
  writer_chat : Prompt -> result text
}.

Definition object_key (prefix : string) (e : Ext) (file : Upload) : text :=
  str prefix ++ str (NilZero.string_of_int (Z.to_int (now e)))
    ++ str "_" ++ filename file.

Fixpoint for_each {A : Type} (f : A -> result unit) (xs : list A) : result unit :=
  match xs with
  | [] => Ok tt
  | x :: xs' => (_ <- f x ;; for_each f xs')%result
  end.

Definition insert_waste_events (e : Ext) (rows : list WasteItem) : result unit :=
  (_ <- sf_connect e ;;
   for_each
     (fun r =>
        src <- match source r with Some s => Ok s | None => Raise KeyError end ;;
        sf_execute_waste_event e src r)
     rows)%result.

Definition insert_invoice_lines (e : Ext) (period vendor : text)
    (ls : list InvoiceLine) : result unit :=
  (_ <- sf_connect e ;;
   for_each (sf_execute_invoice_line e period vendor) ls)%result.

Inductive Summary : Type :=
| TemplateSummary (dr : Q)
| WriterSummary (s : text).

(** Without a key the local template is returned; with a key the call to
    the text-generation service is made and whatever it raises is not
    handled here. *)
Definition writer_kpi_summary (e : Ext) (kpis : KpiState) : result Summary :=
  match WRITER_API_KEY e with
  | [] => Ok (TemplateSummary (diversion_rate kpis * 100))
  | _ :: _ =>
      (s <- writer_chat e (KpiPrompt kpis) ;; Ok (WriterSummary (strip s)))%result
  end.

(** ** Endpoints of [src/backend/app.py] *)

Module App.

Record ImageResponse : Type := mkImageResponse {
  image_ok : bool;
  items : list WasteItem
}.

Record InvoiceResponse : Type := mkInvoiceResponse {
  invoice_ok : bool;
  parsed : Parsed
}.

Record KpisResponse : Type := mkKpisResponse {
  data : KpiState;
  summary : Summary
}.

Record ResetResponse : Type := mkResetResponse {
  reset_ok : bool;
  message : string
}.

(** A handler runs on the shared [mock_kpis]; what it wrote before raising
    stays written. *)
Definition handler (A : Type) : Type := KpiState -> result A * KpiState.

Definition mock_items : list WasteItem :=
  [ mkItem "plastic_bottle" "recycle" 0.95%Q (Some 0.05%Q)
      (Some "Place plastic bottle in the recycle bin."%string) None;
    mkItem "aluminum_can" "recycle" 0.88%Q (Some 0.02%Q)
      (Some "Place aluminum can in the recycle bin."%string) None;
    mkItem "pizza_box_greasy" "landfill" 0.92%Q (Some 0.15%Q)
      (Some "Place greasy pizza box in the landfill bin."%string) None ].

Definition mock_text : text :=
  str "Recycling 15.2 kg $45
Landfill 8.7 kg $32
Compost 12.1 kg $28
Period 2025-01 Vendor GreenCity".

Definition ignore_failure (c : result unit) : result unit :=
  try_except c (fun _ => Ok tt).

Definition upload_image (e : Ext) (file : Upload) : handler ImageResponse :=
  fun st =>
    let img := body file in
    let key := object_key "waste/" e file in
    match ignore_failure (s3_put_object e key img (content_type file)) with
    | Raise x => (Raise x, st)
    | Ok _ =>
        let st1 :=
          fold_left
            (fun acc item =>
               add_route acc (route item)
                 (match est_weight_kg item with Some w => w | None => 0.1%Q end))
            mock_items st in
        match recompute_diversion st1 with
        | Raise x => (Raise x, st1)
        | Ok st2 =>
            match ignore_failure (insert_waste_events e mock_items) with
            | Raise x => (Raise x, st2)
            | Ok _ => (Ok (mkImageResponse true mock_items), st2)
            end
        end
    end.

Definition upload_invoice (e : Ext) (file : Upload) : handler InvoiceResponse :=
  fun st =>
    let pdf := body file in
    let key := object_key "invoices/" e file in
    match ignore_failure (s3_put_object e key pdf (content_type file)) with
    | Raise x => (Raise x, st)
    | Ok _ =>
        match parse_invoice_text mock_text with
        | Raise x => (Raise x, st)
        | Ok p =>
            let st1 :=
              fold_left
                (fun acc line => add_line_type acc (line_type line) (weight_kg line))
                (lines p) st in
            match recompute_diversion st1 with
            | Raise x => (Raise x, st1)
            | Ok st2 =>
                match ignore_failure
                        (insert_invoice_lines e (period p) (vendor p) (lines p)) with
                | Raise x => (Raise x, st2)
                | Ok _ => (Ok (mkInvoiceResponse true p), st2)
                end
            end
        end
    end.

Definition kpis (e : Ext) : handler KpisResponse :=
  fun st =>
    match writer_kpi_summary e st with
    | Raise x => (Raise x, st)
    | Ok s => (Ok (mkKpisResponse st s), st)
    end.

Definition reset_kpis : handler ResetResponse :=
  fun _ => (Ok (mkResetResponse true "KPIs reset to zero"), kpi_zero).

End App.

(** ** The invoice endpoint of [.aws-sam/build/ApiFunction/app.py] *)

Module ApiFunction.

Definition fallback_text : text :=
  str "Recycling 520 kg $180
Landfill 260 kg $210
Compost 140 kg $90
Period 2025-09 Vendor GreenCity".

Fixpoint line_texts (blocks : list Block) : result (list text) :=
  match blocks with
  | [] => Ok []
  | b :: bs =>
      if String.eqb (BlockType b) "LINE" then
        (t <- match Text b with Some t => Ok t | None => Raise KeyError end ;;
         ts <- line_texts bs ;;
         Ok (t :: ts))%result
      else line_texts bs
  end.

Fixpoint join_lines (ls : list text) : text :=
  match ls with
  | [] => []
  | [l] => l
  | l :: ls' => l ++ str "
" ++ join_lines ls'
  end.

Definition ocr_text (e : Ext) (pdf : text) : result text :=
  try_except
    (tex <- textract_detect_document_text e pdf ;;
     ls <- line_texts tex ;;
     Ok (join_lines ls))%result
    (fun _ => Ok fallback_text).

Definition upload_invoice (e : Ext) (file : Upload) : result App.InvoiceResponse :=
  (let pdf := body file in
   let key := object_key "invoices/" e file in
   _ <- s3_put_object e key pdf (content_type file) ;;
   txt <- ocr_text e pdf ;;
   p <- parse_invoice_text txt ;;
   _ <- insert_invoice_lines e (period p) (vendor p) (lines p) ;;
   Ok (App.mkInvoiceResponse true p))%result.

End ApiFunction.

(** * Vocabulary of the statements *)

(** [no_groups r]: the pattern [r] has no capture group. *)
Fixpoint no_groups (r : regex) : bool :=
  match r with
  | Eps | Chr _ | Star _ _ => true
  | Seq a b | Alt a b => no_groups a && no_groups b
  | Group _ _ => false
  end.

(** [number_shape w]: [w] is a run of digits, or two runs of digits with a
    point between them. *)
Definition number_shape (w : text) : Prop :=
  exists ip,
    forallb is_digit ip = true /\ ip <> [] /\
    (w = ip \/
     exists c fp, is_dot c = true /\ forallb is_digit fp = true /\ fp <> [] /\
                  w = ip ++ c :: fp).

(** [prefix_by eq w s]: [s] begins with the letters of [w], compared by [eq]. *)
Fixpoint prefix_by (eq : ascii -> ascii -> bool) (w s : text) : bool :=
  match w, s with
  | [], _ => true
  | a :: w', c :: s' => eq a c && prefix_by eq w' s'
  | _ :: _, [] => false
  end.

(** [occurs P s]: some suffix of [s] (some start position) satisfies [P]. *)
Fixpoint occurs (P : text -> bool) (s : text) : bool :=
  P s || match s with
         | [] => false
         | _ :: s' => occurs P s'
         end.

(** [absent_before P pre rest]: in [pre ++ rest], no start position inside
    [pre] satisfies [P]. *)
Fixpoint absent_before (P : text -> bool) (pre rest : text) : bool :=
  match pre with
  | [] => true
  | _ :: pre' => negb (P (pre ++ rest)) && absent_before P pre' rest
  end.

Definition char_eq (ci : bool) : ascii -> ascii -> bool :=
  if ci then eqc_ci else eqc.

(** [first r s g x]: [x] is the way the matcher takes for [r] at the head of
    [s], the first of [ways]. *)
Definition first (r : regex) (s : text) (g : captures) (x : way) : Prop :=
  exists tl, ways r s g = x :: tl.

Inductive category : Type := Recycling | Compost | Landfill.

Definition kind_of (c : category) : regex :=
  match c with
  | Recycling => recycl_kind
  | Compost => compost_kind
  | Landfill => landfill_kind
  end.

Definition name_of (c : category) : string :=
  match c with
  | Recycling => "recycling"
  | Compost => "compost"
  | Landfill => "landfill"
  end.

Definition has_line (lt : string) (p : Parsed) : Prop :=
  exists l, In l (lines p) /\ line_type l = lt.

(** The list built by the three [if ...: lines.append(...)] statements. *)
Definition lines_of (rkg rusd lkg lusd ckg cusd : Q) : list InvoiceLine :=
  append_if (truthy lkg) (mkLine "landfill" lkg lusd)
    (append_if (truthy ckg) (mkLine "compost" ckg cusd)
       (append_if (truthy rkg) (mkLine "recycling" rkg rusd) [])).

(** A year-month token begins here: [20], two digits, one of [-/.], a digit. *)
Definition period_token_at (s : text) : bool :=
  prefix_by eqc (str "20") s &&
  match skipn 2 s with
  | c3 :: c4 :: c5 :: c6 :: _ =>
      is_digit c3 && is_digit c4 && period_sep c5 && is_digit c6
  | _ => false
  end.

(** An "Invoice" or "Vendor" label, in any letter case, begins here. *)
Definition label_at (s : text) : bool :=
  prefix_by eqc_ci (str "Invoice") s || prefix_by eqc_ci (str "Vendor") s.

Definition has_period_token (txt : text) : bool := occurs period_token_at txt.
Definition has_vendor_label (txt : text) : bool := occurs label_at txt.

Definition keyword_of (c : category) : string :=
  match c with
  | Recycling => "recycl"
  | Compost => "compost"
  | Landfill => "landfill"
  end.

(** The category keyword, in any letter case, begins here. *)
Definition keyword_at (c : category) (s : text) : bool :=
  prefix_by eqc_ci (str (keyword_of c)) s.

(** The category as an invoice would head a line with it. *)
Definition heading (c : category) : text :=
  match c with
  | Recycling => str "Recycling"
  | Compost => str "Composting"
  | Landfill => str "Landfill"
  end.

Definition invoice_line_520 : text := str "Recycling 520 kg $180".

Definition two_recycling_lines : text :=
  str "Recycling 1 kg
Recycling 520 kg $180".

(** The invariant of the data model: the stored rate is the diverted share
    of the total when the total is positive, and zero when the total is zero. *)
Definition diversion_invariant (st : KpiState) : Prop :=
  ((0 < total_waste st)%Q ->
   (diversion_rate st
    == (recycle_kg st + compost_kg st) / total_waste st)%Q) /\
  ((total_waste st == 0)%Q -> diversion_rate st = 0%Q).

Definition same_totals (a b : KpiState) : Prop :=
  recycle_kg a = recycle_kg b /\ compost_kg a = compost_kg b /\
  landfill_kg a = landfill_kg b.

Definition recognized (name : string) : bool :=
  String.eqb name "recycle" || String.eqb name "recycling"
  || String.eqb name "compost" || String.eqb name "landfill".

(** An outside world in which a text-generation key is configured and the
    text-generation call fails; everything else succeeds. *)
Definition ext_writer_down : Ext :=
  mkExt 0 (fun _ _ _ => Ok tt) (fun _ => Ok []) (Ok tt)
        (fun _ _ => Ok tt) (fun _ _ _ => Ok tt)
        (str "key") (fun _ => Raise (ExternalError "text-generation")).

(** An outside world in which OCR reads one line, "Landfill 9 kg $4", and
    nothing fails. *)
Definition ext_ocr_reads : Ext :=
  mkExt 0 (fun _ _ _ => Ok tt)
        (fun _ => Ok [mkBlock "LINE" (Some (str "Landfill 9 kg $4"))]) (Ok tt)
        (fun _ _ => Ok tt) (fun _ _ _ => Ok tt)
        [] (fun _ => Ok []).

Definition some_upload : Upload :=
  mkUpload (str "invoice.pdf") (str "application/pdf") (str "Landfill 9 kg $4").

(** A mention of the category that its [kind] pattern can match begins
    here: the keyword and, for [recycl\w+] and [compost\w+], a word character
    right after it. *)
Definition mention_at (c : category) (s : text) : bool :=
  keyword_at c s &&
  match c with
  | Landfill => true
  | Recycling | Compost =>
      match skipn (List.length (str (keyword_of c))) s with
      | x :: _ => is_word x
      | [] => false
      end
  end.

Definition known_line_type (name : string) : bool :=
  String.eqb name "recycling" || String.eqb name "compost"
  || String.eqb name "landfill".

(** An unsigned decimal literal as an invoice writes it: digits, and
    possibly a point and more digits. *)
Definition literal (ip : text) (fp : option text) : text :=
  ip ++ match fp with
        | Some f => "."%char :: f
        | None => []
        end.

Definition literal_value (ip : text) (fp : option text) : Q :=
  decimal ip (match fp with Some f => f | None => [] end).

Definition digit_run (w : text) : bool :=
  forallb is_digit w && negb (Nat.eqb (List.length w) 0).

Definition well_formed_literal (ip : text) (fp : option text) : bool :=
  digit_run ip && match fp with
                  | Some f => digit_run f
                  | None => true
                  end.

Definition unit_text (ton : bool) : text :=
  if ton then str "ton" else str "kg".

(** A year-month string: [20], two digits, one of [-/.], one or two digits. *)
Definition is_period (w : text) : bool :=
  match w with
  | a :: b :: c :: d :: e :: f :: tl =>
      eqc "2" a && eqc "0" b && is_digit c && is_digit d && period_sep e
      && is_digit f
      && match tl with
         | [] => true
         | [g] => is_digit g
         | _ => false
         end
  | _ => false
  end.

(** No white space at either end. *)
Definition trimmed (w : text) : bool :=
  match w with
  | [] => true
  | c :: _ => negb (is_space c)
  end
  && match rev w with
     | [] => true
     | c :: _ => negb (is_space c)
     end.

Definition starts_with_digit (s : text) : bool :=
  match s with
  | c :: _ => is_digit c
  | [] => false
  end.

(** Requests to [app.py], each served in some state of the outside world,
    and the state of [mock_kpis] after a history of them. *)
Inductive request : Type :=
| ReqImage (file : Upload)
| ReqInvoice (file : Upload)
| ReqKpis
| ReqReset.

Definition serve (e : Ext) (r : request) (st : KpiState) : KpiState :=
  match r with
  | ReqImage file => snd (App.upload_image e file st)
  | ReqInvoice file => snd (App.upload_invoice e file st)
  | ReqKpis => snd (App.kpis e st)
  | ReqReset => snd (App.reset_kpis st)
  end.

Fixpoint run (history : list (Ext * request)) (st : KpiState) : KpiState :=
  match history with
  | [] => st
  | (e, r) :: rest => run rest (serve e r st)
  end.

(** Image and invoice submissions since the last reset. *)
Fixpoint submissions (history : list (Ext * request)) (images invoices : nat)
    : nat * nat :=
  match history with
  | [] => (images, invoices)
  | (_, ReqImage _) :: rest => submissions rest (S images) invoices
  | (_, ReqInvoice _) :: rest => submissions rest images (S invoices)
  | (_, ReqKpis) :: rest => submissions rest images invoices
  | (_, ReqReset) :: rest => submissions rest 0 0
  end.

Definition count (n : nat) : Q := inject_Z (Z.of_nat n).

Definition has_source (r : WasteItem) : bool :=
  match source r with
  | Some _ => true
  | None => false
  end.

(** ** The text handed to [json.loads] in [vision_classify] *)

Fixpoint find_from (c : ascii) (s : text) (i : Z) : Z :=
  match s with
  | [] => (-1)%Z
  | x :: s' => if Ascii.eqb x c then i else find_from c s' (i + 1)%Z
  end.

(** [s.find(c)]: the first index of [c], or -1. *)
Definition find (c : ascii) (s : text) : Z := find_from c s 0.

Fixpoint rfind_from (c : ascii) (s : text) (i best : Z) : Z :=
  match s with
  | [] => best
  | x :: s' => rfind_from c s' (i + 1)%Z (if Ascii.eqb x c then i else best)
  end.

(** [s.rfind(c)]: the last index of [c], or -1. *)
Definition rfind (c : ascii) (s : text) : Z := rfind_from c s 0 (-1).

(** A slice bound as Python reads it: a negative bound counts from the end,
    and the result is clipped to the string. *)
Definition clip (n i : Z) : Z :=
  if (i <? 0)%Z then Z.max (i + n) 0 else Z.min i n.

(** [s[a:b]] *)
Definition pyslice (s : text) (a b : Z) : text :=
  let n := Z.of_nat (List.length s) in
  let a' := clip n a in
  let b' := clip n b in
  firstn (Z.to_nat (b' - a')) (skipn (Z.to_nat a') s).

(** [txt[txt.find("["): txt.rfind("]")+1]] *)
Definition json_array_text (txt : text) : text :=
  pyslice txt (find "["%char txt) (rfind "]"%char txt + 1).

Definition lacks (c : ascii) (s : text) : bool :=
  forallb (fun x => negb (Ascii.eqb x c)) s.

Definition ends_outside (p : ascii -> bool) (s : text) : bool :=
  match s with
  | [] => true
  | c :: _ => negb (p c)
  end.

(** [w] is the word "Invoice" or the word "Vendor", in any letter case. *)
Definition is_label (w : text) : bool :=
  (Nat.eqb (List.length w) 7 && prefix_by eqc_ci (str "Invoice") w)
  || (Nat.eqb (List.length w) 6 && prefix_by eqc_ci (str "Vendor") w).

Definition starts_with_letter (w : text) : bool :=
  match w with
  | c :: _ => is_ascii_letter c
  | [] => false
  end.

(** An outside world in which the OCR call fails and nothing else does. *)
Definition ext_ocr_down : Ext :=
  mkExt 0 (fun _ _ _ => Ok tt)
        (fun _ => Raise (ExternalError "ocr")) (Ok tt)
        (fun _ _ => Ok tt) (fun _ _ _ => Ok tt)
        [] (fun _ => Ok []).

Definition sourced_item : WasteItem :=
  mkItem "glass_jar" "recycle" 0.8%Q (Some 0.3%Q) None (Some "image"%string).









(** * Facts about the matcher *)

Section MatcherFacts.

Lemma in_ways_seq (a b : regex) (s : text) (g : captures)
    (w s' : text) (g' : captures) :
  In (w, s', g') (ways (Seq a b) s g) <->
  exists w1 s1 g1 w2,
    In (w1, s1, g1) (ways a s g) /\ In (w2, s', g') (ways b s1 g1) /\
    w = w1 ++ w2.
Proof.
  simpl. rewrite in_flat_map. split.
  - intros [[[w1 s1] g1] [Ha Hb]]. apply in_map_iff in Hb.
    destruct Hb as [[[w2 s2] g2] [E Hb]].
    injection E as Ew Es Eg. subst s2 g2.
    exists w1, s1, g1, w2. auto.
  - intros (w1 & s1 & g1 & w2 & Ha & Hb & E).
    exists (w1, s1, g1). split; [exact Ha|].
    apply in_map_iff. exists (w2, s', g'). subst w. auto.
Qed.

Lemma in_ways_alt (a b : regex) (s : text) (g : captures) (x : way) :
  In x (ways (Alt a b) s g) <-> In x (ways a s g) \/ In x (ways b s g).
Proof. simpl. apply in_app_iff. Qed.

Lemma in_ways_eps (s : text) (g : captures) (w s' : text) (g' : captures) :
  In (w, s', g') (ways Eps s g) <-> w = [] /\ s' = s /\ g' = g.
Proof.
  simpl. split.
  - intros [E|[]]. injection E as <- <- <-. auto.
  - intros (-> & -> & ->). auto.
Qed.

Lemma in_ways_group (n : nat) (r : regex) (s : text) (g : captures)
    (w s' : text) (g' : captures) :
  In (w, s', g') (ways (Group n r) s g) <->
  exists g1, In (w, s', g1) (ways r s g) /\ g' = (n, w) :: g1.
Proof.
  simpl. rewrite in_map_iff. split.
  - intros [[[w1 s1] g1] [E H]]. injection E as Ew Es Eg. subst w1 s1.
    exists g1. auto.
  - intros (g1 & H & ->). exists (w, s', g1). auto.
Qed.

Lemma in_ways_chr (p : ascii -> bool) (s : text) (g : captures)
    (w s' : text) (g' : captures) :
  In (w, s', g') (ways (Chr p) s g) <->
  exists c, p c = true /\ w = [c] /\ s = c :: s' /\ g' = g.
Proof.
  simpl. split.
  - destruct s as [|c s0]; [intros []|].
    destruct (p c) eqn:Hc; [|intros []].
    intros [H|[]]. injection H as <- <- <-. exists c. auto.
  - intros (c & Hc & -> & -> & ->). rewrite Hc. left. reflexivity.
Qed.

Lemma star_greedy_forall (p : ascii -> bool) (s w r : text) :
  In (w, r) (star_greedy p s) -> forallb p w = true.
Proof.
  revert w r. induction s as [|c s IH]; simpl; intros w r H.
  - destruct H as [H|[]]. injection H as <- <-. reflexivity.
  - destruct (p c) eqn:Hc.
    + apply in_app_or in H. destruct H as [H|[H|[]]].
      * apply in_map_iff in H. destruct H as [[w' r'] [E H]].
        injection E as <- <-. simpl. rewrite Hc. simpl. eapply IH; eauto.
      * injection H as <- <-. reflexivity.
    + destruct H as [H|[]]. injection H as <- <-. reflexivity.
Qed.

Lemma star_lazy_forall (p : ascii -> bool) (s w r : text) :
  In (w, r) (star_lazy p s) -> forallb p w = true.
Proof.
  revert w r. induction s as [|c s IH]; simpl; intros w r H.
  - destruct H as [H|[]]. injection H as <- <-. reflexivity.
  - destruct (p c) eqn:Hc.
    + destruct H as [H|H].
      * injection H as <- <-. reflexivity.
      * apply in_map_iff in H. destruct H as [[w' r'] [E H]].
        injection E as <- <-. simpl. rewrite Hc. simpl. eapply IH; eauto.
    + destruct H as [H|[]]. injection H as <- <-. reflexivity.
Qed.

Lemma in_ways_star (greedy : bool) (p : ascii -> bool) (s : text)
    (g : captures) (w s' : text) (g' : captures) :
  In (w, s', g') (ways (Star greedy p) s g) -> forallb p w = true /\ g' = g.
Proof.
  simpl. rewrite in_map_iff. intros [[w0 r0] [E H]]. simpl in E.
  injection E as <- <- <-. split; [|reflexivity].
  destruct greedy; [eapply star_greedy_forall | eapply star_lazy_forall]; eauto.
Qed.

Lemma in_ways_plus (p : ascii -> bool) (s : text) (g : captures)
    (w s' : text) (g' : captures) :
  In (w, s', g') (ways (plus p) s g) ->
  forallb p w = true /\ w <> [] /\ g' = g.
Proof.
  unfold plus. rewrite in_ways_seq.
  intros (w1 & s1 & g1 & w2 & Ha & Hb & ->).
  apply in_ways_chr in Ha. destruct Ha as (c & Hc & -> & _ & ->).
  apply in_ways_star in Hb. destruct Hb as [Hw ->].
  simpl. rewrite Hc, Hw. repeat split. discriminate.
Qed.

Lemma ways_no_groups (r : regex) :
  no_groups r = true ->
  forall s g w s' g', In (w, s', g') (ways r s g) -> g' = g.
Proof.
  induction r as [|p|a IHa b IHb|a IHa b IHb|gr p|n r IH];
    intros Hn s g w s' g' H; simpl in Hn.
  - apply in_ways_eps in H. tauto.
  - apply in_ways_chr in H. destruct H as (c & _ & _ & _ & ->). reflexivity.
  - apply andb_true_iff in Hn. destruct Hn as [Ha Hb].
    apply in_ways_seq in H. destruct H as (w1 & s1 & g1 & w2 & H1 & H2 & _).
    rewrite (IHb Hb _ _ _ _ _ H2). eapply IHa; eauto.
  - apply andb_true_iff in Hn. destruct Hn as [Ha Hb].
    apply in_ways_alt in H. destruct H as [H|H]; [eapply IHa | eapply IHb]; eauto.
  - apply in_ways_star in H. tauto.
  - discriminate.
Qed.

Lemma lits_no_groups (ci : bool) (w : text) : no_groups (lits ci w) = true.
Proof. induction w as [|c w IH]; simpl; auto. Qed.

(** A successful search comes from a first way at some start. *)
Lemma search_from_some (r : regex) (s : text) (i : nat) (mt : Match) :
  search_from r i s = Some mt ->
  exists s' s'' rest,
    ways r s' [] = (m_whole mt, s'', m_groups mt) :: rest.
Proof.
  revert i. induction s as [|c s IH]; intros i; simpl; unfold match_at.
  - destruct (ways r [] []) as [|[[w s''] g] rest] eqn:E; [discriminate|].
    intros H. injection H as <-. simpl. eauto.
  - destruct (ways r (c :: s) []) as [|[[w s''] g] rest] eqn:E.
    + apply IH.
    + intros H. injection H as <-. simpl. eauto.
Qed.

Lemma search_some_in (r : regex) (s : text) (mt : Match) :
  search r s = Some mt ->
  exists s' s'', In (m_whole mt, s'', m_groups mt) (ways r s' []).
Proof.
  intros H. apply search_from_some in H. destruct H as (s' & s'' & rest & E).
  exists s', s''. rewrite E. left. reflexivity.
Qed.

End MatcherFacts.

(** * The heuristic never raises *)

Section Totality.

Lemma digit_not_dot (c : ascii) : is_digit c = true -> (code c =? 46) = false.
Proof.
  unfold is_digit, between. intros H. apply andb_true_iff in H.
  destruct H as [H _]. apply Nat.leb_le in H. apply Nat.eqb_neq. lia.
Qed.

Lemma split_dot_digits (ip : text) :
  forallb is_digit ip = true -> split_dot ip = (ip, None).
Proof.
  induction ip as [|c ip IH]; simpl; intros H; [reflexivity|].
  apply andb_true_iff in H. destruct H as [Hc H].
  rewrite (digit_not_dot _ Hc), (IH H). reflexivity.
Qed.

Lemma split_dot_point (ip : text) (c : ascii) (fp : text) :
  forallb is_digit ip = true -> is_dot c = true ->
  split_dot (ip ++ c :: fp) = (ip, Some fp).
Proof.
  intros H Hd. induction ip as [|d ip IH]; simpl.
  - unfold is_dot in Hd. rewrite Hd. reflexivity.
  - simpl in H. apply andb_true_iff in H. destruct H as [Hc H].
    rewrite (digit_not_dot _ Hc), (IH H). reflexivity.
Qed.

Lemma length_nonzero (w : text) (n : nat) :
  w <> [] -> Nat.eqb (List.length w + n) 0 = false.
Proof. destruct w; [congruence|reflexivity]. Qed.

Lemma pyfloat_digits (ip : text) :
  forallb is_digit ip = true -> ip <> [] -> pyfloat ip = Ok (decimal ip []).
Proof.
  intros H Hn. unfold pyfloat. rewrite (split_dot_digits _ H), H.
  simpl forallb. rewrite (length_nonzero _ _ Hn). reflexivity.
Qed.

Lemma pyfloat_point (ip : text) (c : ascii) (fp : text) :
  forallb is_digit ip = true -> ip <> [] -> is_dot c = true ->
  forallb is_digit fp = true ->
  pyfloat (ip ++ c :: fp) = Ok (decimal ip fp).
Proof.
  intros H Hn Hd Hf. unfold pyfloat.
  rewrite (split_dot_point _ _ fp H Hd), H, Hf.
  rewrite (length_nonzero _ _ Hn). reflexivity.
Qed.

Lemma pyfloat_number_shape (w : text) :
  number_shape w -> exists q, pyfloat w = Ok q.
Proof.
  intros (ip & H & Hn & [->|(c & fp & Hd & Hf & _ & ->)]).
  - eexists. apply pyfloat_digits; assumption.
  - eexists. apply pyfloat_point; assumption.
Qed.

Lemma in_ways_number_re (s : text) (g : captures) (w s' : text) (g' : captures) :
  In (w, s', g') (ways number_re s g) -> g' = (1, w) :: g /\ number_shape w.
Proof.
  unfold number_re. rewrite in_ways_group. intros (g0 & H & ->).
  apply in_ways_seq in H. destruct H as (w1 & s1 & g1 & w2 & H1 & H2 & ->).
  apply in_ways_plus in H1. destruct H1 as (Hd & Hn & ->).
  unfold opt in H2. apply in_ways_alt in H2. destruct H2 as [H2|H2].
  - apply in_ways_seq in H2. destruct H2 as (w3 & s3 & g3 & w4 & H3 & H4 & ->).
    apply in_ways_chr in H3. destruct H3 as (c & Hc & -> & _ & ->).
    apply in_ways_plus in H4. destruct H4 as (Hf & Hfn & ->).
    split; [reflexivity|]. exists w1. repeat split; auto.
    right. exists c, w4. auto.
  - apply in_ways_eps in H2. destruct H2 as (-> & _ & ->).
    rewrite app_nil_r. split; [reflexivity|]. exists w1. auto.
Qed.

Lemma kg_re_group1 (kind : regex) (s : text) (w s' : text) (g' : captures) :
  no_groups kind = true ->
  In (w, s', g') (ways (kg_re kind) s []) ->
  exists n, g' = [(1, n)] /\ number_shape n.
Proof.
  intros Hk H. unfold kg_re in H.
  apply in_ways_seq in H. destruct H as (w1 & s1 & g1 & w2 & H1 & H & _).
  apply (ways_no_groups _ Hk) in H1. subst g1.
  apply in_ways_seq in H. destruct H as (w3 & s3 & g3 & w4 & H3 & H & _).
  apply in_ways_star in H3. destruct H3 as [_ ->].
  apply in_ways_seq in H. destruct H as (w5 & s5 & g5 & w6 & H5 & H & _).
  apply in_ways_number_re in H5. destruct H5 as [-> Hs].
  apply (ways_no_groups kg_tail) in H; [|reflexivity]. subst.
  exists w5. auto.
Qed.

Lemma usd_re_group1 (kind : regex) (s : text) (w s' : text) (g' : captures) :
  no_groups kind = true ->
  In (w, s', g') (ways (usd_re kind) s []) ->
  exists n, g' = [(1, n)] /\ number_shape n.
Proof.
  intros Hk H. unfold usd_re in H.
  apply in_ways_seq in H. destruct H as (w1 & s1 & g1 & w2 & H1 & H & _).
  apply (ways_no_groups _ Hk) in H1. subst g1.
  apply in_ways_seq in H. destruct H as (w3 & s3 & g3 & w4 & H3 & H & _).
  apply in_ways_star in H3. destruct H3 as [_ ->].
  apply in_ways_seq in H. destruct H as (w5 & s5 & g5 & w6 & H5 & H & _).
  apply (ways_no_groups (opt (Chr is_dollar))) in H5; [|reflexivity]. subst g5.
  apply in_ways_seq in H. destruct H as (w7 & s7 & g7 & w8 & H7 & H & _).
  apply (ways_no_groups (opt (Chr is_space))) in H7; [|reflexivity]. subst g7.
  apply in_ways_number_re in H. destruct H as [-> Hs].
  exists w8. auto.
Qed.

Lemma float_group1_returns (r : regex) (txt : text) :
  (forall s w s' g', In (w, s', g') (ways r s []) ->
                     exists n, g' = [(1, n)] /\ number_shape n) ->
  exists q, float_group1 (search r txt) = Ok q.
Proof.
  intros Hr. unfold float_group1.
  destruct (search r txt) as [mt|] eqn:E; [|eauto].
  apply search_some_in in E. destruct E as (s' & s'' & Hin).
  apply Hr in Hin. destruct Hin as (n & Hg & Hs).
  unfold group. rewrite Hg. simpl. apply pyfloat_number_shape, Hs.
Qed.

Lemma grab_returns (txt : text) (kind : regex) :
  no_groups kind = true -> exists kg usd, grab txt kind = Ok (kg, usd).
Proof.
  intros Hk. unfold grab.
  destruct (float_group1_returns (kg_re kind) txt) as [kg Ekg].
  { intros s w s' g'. apply kg_re_group1, Hk. }
  destruct (float_group1_returns (usd_re kind) txt) as [usd Eusd].
  { intros s w s' g'. apply usd_re_group1, Hk. }
  rewrite Ekg, Eusd. simpl. eauto.
Qed.

Lemma period_group1 (txt : text) (mt : Match) :
  search period_re txt = Some mt -> group mt 1 = Some (m_whole mt).
Proof.
  intros E. apply search_some_in in E. destruct E as (s' & s'' & Hin).
  unfold period_re in Hin. apply in_ways_group in Hin.
  destruct Hin as (g1 & _ & E).
  unfold group. rewrite E. reflexivity.
Qed.

Lemma vendor_group2 (txt : text) (mt : Match) :
  search vendor_re txt = Some mt -> exists w, group mt 2 = Some w.
Proof.
  intros E. apply search_some_in in E. destruct E as (s' & s'' & H).
  unfold vendor_re in H.
  apply in_ways_seq in H. destruct H as (w1 & s1 & g1 & w2 & _ & H & _).
  apply in_ways_seq in H. destruct H as (w3 & s3 & g3 & w4 & _ & H & _).
  apply in_ways_group in H. destruct H as (g5 & _ & E).
  unfold group. rewrite E. simpl. eauto.
Qed.

End Totality.

(** * Where a search can and cannot start *)

Section Occurrences.

Lemma in_ways_lits (ci : bool) (lw : text) (s : text) (g : captures)
    (w s' : text) (g' : captures) :
  In (w, s', g') (ways (lits ci lw) s g) ->
  s = w ++ s' /\ List.length w = List.length lw /\
  prefix_by (char_eq ci) lw s = true /\ g' = g.
Proof.
  revert s w. induction lw as [|a lw IH]; intros s w H.
  - apply in_ways_eps in H. destruct H as (-> & -> & ->). auto.
  - simpl lits in H. apply in_ways_seq in H.
    destruct H as (w1 & s1 & g1 & w2 & H1 & H2 & ->).
    unfold lit in H1. apply in_ways_chr in H1.
    destruct H1 as (c & Hc & -> & -> & ->).
    apply IH in H2. destruct H2 as (-> & Hl & Hp & ->).
    simpl. rewrite Hl. repeat split.
    apply andb_true_iff. split; [|exact Hp].
    unfold char_eq. destruct ci; exact Hc.
Qed.

Variable r : regex.
Variable P : text -> bool.
Hypothesis r_needs_P : forall s x, In x (ways r s []) -> P s = true.

Lemma no_way (s : text) : P s = false -> ways r s [] = [].
Proof.
  intros HP. destruct (ways r s []) as [|x l] eqn:E; [reflexivity|].
  rewrite (r_needs_P s x) in HP; [discriminate|]. rewrite E. left. reflexivity.
Qed.

Lemma search_from_absent (txt : text) (i : nat) :
  occurs P txt = false -> search_from r i txt = None.
Proof.
  revert i. induction txt as [|c txt IH]; intros i H; simpl in H;
    apply orb_false_iff in H; destruct H as [HP H];
    simpl; unfold match_at; rewrite (no_way _ HP); auto.
Qed.

Lemma search_absent (txt : text) : occurs P txt = false -> search r txt = None.
Proof. apply search_from_absent. Qed.

Lemma search_from_skip (pre rest : text) (i : nat) :
  absent_before P pre rest = true ->
  search_from r i (pre ++ rest) = search_from r (i + List.length pre) rest.
Proof.
  revert i. induction pre as [|c pre IH]; intros i H.
  - simpl. rewrite Nat.add_0_r. reflexivity.
  - simpl in H. apply andb_true_iff in H. destruct H as [HP H].
    apply negb_true_iff in HP.
    change ((c :: pre) ++ rest) with (c :: pre ++ rest).
    cbn [search_from]. unfold match_at.
    rewrite (no_way _ HP). rewrite (IH (S i) H).
    f_equal. simpl. lia.
Qed.

Lemma search_skip (pre rest : text) :
  absent_before P pre rest = true ->
  search r (pre ++ rest) = search_from r (List.length pre) rest.
Proof. intros H. unfold search. rewrite (search_from_skip _ _ 0 H). reflexivity. Qed.

End Occurrences.

(** * The way the matcher takes *)

Section FirstWay.

Lemma first_seq (a b : regex) (s : text) (g : captures)
    (w1 s1 : text) (g1 : captures) (w2 s2 : text) (g2 : captures) :
  first a s g (w1, s1, g1) -> first b s1 g1 (w2, s2, g2) ->
  first (Seq a b) s g (w1 ++ w2, s2, g2).
Proof.
  intros [ta Ea] [tb Eb]. unfold first. simpl. rewrite Ea. simpl.
  rewrite Eb. simpl. eauto.
Qed.

Lemma first_group (n : nat) (r : regex) (s : text) (g : captures)
    (w s' : text) (g' : captures) :
  first r s g (w, s', g') -> first (Group n r) s g (w, s', (n, w) :: g').
Proof. intros [t E]. unfold first. simpl. rewrite E. simpl. eauto. Qed.

Lemma first_alt_l (a b : regex) (s : text) (g : captures) (x : way) :
  first a s g x -> first (Alt a b) s g x.
Proof. intros [t E]. unfold first. simpl. rewrite E. simpl. eauto. Qed.

Lemma first_alt_r (a b : regex) (s : text) (g : captures) (x : way) :
  ways a s g = [] -> first b s g x -> first (Alt a b) s g x.
Proof. intros Ea [t E]. unfold first. simpl. rewrite Ea, E. simpl. eauto. Qed.

Lemma first_match_at (r : regex) (i : nat) (s : text)
    (w s' : text) (g : captures) :
  first r s [] (w, s', g) -> match_at r i s = Some (mkMatch i w g).
Proof. intros [t E]. unfold match_at. rewrite E. reflexivity. Qed.

Lemma first_search_from (r : regex) (i : nat) (s : text)
    (w s' : text) (g : captures) :
  first r s [] (w, s', g) -> search_from r i s = Some (mkMatch i w g).
Proof.
  intros H. destruct s; simpl; rewrite (first_match_at r i _ w s' g H); reflexivity.
Qed.

Lemma star_lazy_first (p : ascii -> bool) (s : text) :
  exists tl, star_lazy p s = ([], s) :: tl.
Proof. destruct s as [|c s]; simpl; [eauto|]. destruct (p c); eauto. Qed.

(** The lazy star gives up one character when what follows fails at once. *)
Lemma first_lazy_skip (p : ascii -> bool) (b : regex) (c : ascii) (s : text)
    (g : captures) (w2 s2 : text) (g2 : captures) :
  p c = true -> ways b (c :: s) g = [] -> first b s g (w2, s2, g2) ->
  first (Seq (Star false p) b) (c :: s) g (c :: w2, s2, g2).
Proof.
  intros Hc Hb [t E]. unfold first. simpl. rewrite Hc. simpl.
  rewrite Hb. simpl.
  destruct (star_lazy_first p s) as [tl Etl]. rewrite Etl. simpl.
  rewrite E. simpl. eauto.
Qed.

(** The greedy star first takes every character of a run that ends at a
    character outside the class. *)
Lemma star_greedy_first (p : ascii -> bool) (w : text) (c : ascii) (s : text) :
  forallb p w = true -> p c = false ->
  exists tl, star_greedy p (w ++ c :: s) = (w, c :: s) :: tl.
Proof.
  intros Hw Hc. induction w as [|d w IH]; simpl.
  - rewrite Hc. eauto.
  - simpl in Hw. apply andb_true_iff in Hw. destruct Hw as [Hd Hw].
    rewrite Hd. destruct (IH Hw) as [tl E]. rewrite E. simpl. eauto.
Qed.

Lemma first_plus_run (p : ascii -> bool) (d : ascii) (w : text) (c : ascii)
    (s : text) (g : captures) :
  p d = true -> forallb p w = true -> p c = false ->
  first (plus p) (d :: w ++ c :: s) g (d :: w, c :: s, g).
Proof.
  intros Hd Hw Hc. unfold first, plus. simpl. rewrite Hd. simpl.
  destruct (star_greedy_first p w c s Hw Hc) as [tl E]. rewrite E. simpl. eauto.
Qed.

End FirstWay.

(** * The Invoice Text Heuristic *)

Section Heuristic.

Lemma kind_no_groups (c : category) : no_groups (kind_of c) = true.
Proof. destruct c; reflexivity. Qed.

Lemma grab_inv (txt : text) (kind : regex) (kg usd : Q) :
  grab txt kind = Ok (kg, usd) ->
  float_group1 (search (kg_re kind) txt) = Ok kg /\
  float_group1 (search (usd_re kind) txt) = Ok usd.
Proof.
  unfold grab.
  destruct (float_group1 (search (kg_re kind) txt)) as [a|]; [|discriminate].
  destruct (float_group1 (search (usd_re kind) txt)) as [b|]; [|discriminate].
  simpl. intros H. injection H as <- <-. auto.
Qed.

Lemma parse_invoice_text_returns (txt : text) :
  exists rkg rusd lkg lusd ckg cusd p v,
    grab txt recycl_kind = Ok (rkg, rusd) /\
    grab txt landfill_kind = Ok (lkg, lusd) /\
    grab txt compost_kind = Ok (ckg, cusd) /\
    parse_invoice_text txt
      = Ok (mkParsed p v (lines_of rkg rusd lkg lusd ckg cusd)) /\
    (search period_re txt = None -> p = fallback_period) /\
    (search vendor_re txt = None -> v = fallback_vendor).
Proof.
  destruct (grab_returns txt recycl_kind eq_refl) as (rkg & rusd & Er).
  destruct (grab_returns txt landfill_kind eq_refl) as (lkg & lusd & El).
  destruct (grab_returns txt compost_kind eq_refl) as (ckg & cusd & Ec).
  exists rkg, rusd, lkg, lusd, ckg, cusd.
  unfold parse_invoice_text. rewrite Er, El, Ec. cbn [bind].
  destruct (search period_re txt) as [pm|] eqn:Ep.
  - rewrite (period_group1 _ _ Ep). cbn [bind].
    destruct (search vendor_re txt) as [vm|] eqn:Ev.
    + destruct (vendor_group2 _ _ Ev) as [w Ew]. rewrite Ew. cbn [bind].
      eexists _, _. repeat split; discriminate.
    + cbn [bind]. eexists _, _. repeat split. discriminate.
  - cbn [bind].
    destruct (search vendor_re txt) as [vm|] eqn:Ev.
    + destruct (vendor_group2 _ _ Ev) as [w Ew]. rewrite Ew. cbn [bind].
      eexists _, _. repeat split. discriminate.
    + cbn [bind]. eexists _, _. repeat split.
Qed.

Lemma grab_of_category (txt : text) (c : category)
    (rkg rusd lkg lusd ckg cusd : Q) :
  grab txt recycl_kind = Ok (rkg, rusd) ->
  grab txt landfill_kind = Ok (lkg, lusd) ->
  grab txt compost_kind = Ok (ckg, cusd) ->
  grab txt (kind_of c)
  = Ok (match c with Recycling => rkg | Compost => ckg | Landfill => lkg end,
        match c with Recycling => rusd | Compost => cusd | Landfill => lusd end).
Proof. destruct c; simpl; auto. Qed.

Lemma truthy_iff (q : Q) : truthy q = true <-> ~ (q == 0)%Q.
Proof.
  unfold truthy. rewrite negb_true_iff. rewrite <- Qeq_bool_iff.
  destruct (Qeq_bool q 0); intuition congruence.
Qed.

Lemma in_append_if (b : bool) (x : InvoiceLine) (ls : list InvoiceLine)
    (l : InvoiceLine) :
  In l (append_if b x ls) <-> In l ls \/ (b = true /\ l = x).
Proof.
  unfold append_if. destruct b.
  - rewrite in_app_iff. simpl. intuition.
  - intuition. discriminate.
Qed.

Lemma has_line_lines_of (c : category) (p v : text)
    (rkg rusd lkg lusd ckg cusd : Q) :
  has_line (name_of c) (mkParsed p v (lines_of rkg rusd lkg lusd ckg cusd)) <->
  truthy (match c with Recycling => rkg | Compost => ckg | Landfill => lkg end)
  = true.
Proof.
  unfold has_line, lines_of. simpl lines. split.
  - intros (l & Hin & Ht).
    repeat (apply in_append_if in Hin; destruct Hin as [Hin|[Hb ->]]);
      try (destruct Hin); destruct c; simpl in Ht; try discriminate; assumption.
  - intros Hb. destruct c.
    + exists (mkLine "recycling" rkg rusd). split; [|reflexivity].
      do 2 (apply in_append_if; left). apply in_append_if. right. auto.
    + exists (mkLine "compost" ckg cusd). split; [|reflexivity].
      apply in_append_if; left. apply in_append_if. right. auto.
    + exists (mkLine "landfill" lkg lusd). split; [|reflexivity].
      apply in_append_if. right. auto.
Qed.

End Heuristic.

(** * Period and vendor tokens *)

Section Tokens.

Lemma period_re_needs_token (s : text) (x : way) :
  In x (ways period_re s []) -> period_token_at s = true.
Proof.
  destruct x as [[w s'] g']. unfold period_re. rewrite in_ways_group.
  intros (g1 & H & _).
  apply in_ways_seq in H. destruct H as (w1 & s1 & ? & ? & H1 & H & _).
  apply in_ways_lits in H1. destruct H1 as (-> & Hl & Hp & _).
  apply in_ways_seq in H. destruct H as (? & s3 & ? & ? & H3 & H & _).
  apply in_ways_chr in H3. destruct H3 as (c3 & Hc3 & _ & -> & _).
  apply in_ways_seq in H. destruct H as (? & s4 & ? & ? & H4 & H & _).
  apply in_ways_chr in H4. destruct H4 as (c4 & Hc4 & _ & -> & _).
  apply in_ways_seq in H. destruct H as (? & s5 & ? & ? & H5 & H & _).
  apply in_ways_chr in H5. destruct H5 as (c5 & Hc5 & _ & -> & _).
  apply in_ways_seq in H. destruct H as (? & s6 & ? & ? & H6 & H & _).
  apply in_ways_chr in H6. destruct H6 as (c6 & Hc6 & _ & -> & _).
  unfold period_token_at. unfold char_eq in Hp. rewrite Hp.
  destruct w1 as [|a [|b [|? ?]]]; try discriminate Hl.
  cbn [skipn app]. rewrite Hc3, Hc4, Hc5, Hc6. reflexivity.
Qed.

Lemma vendor_re_needs_label (s : text) (x : way) :
  In x (ways vendor_re s []) -> label_at s = true.
Proof.
  destruct x as [[w s'] g']. unfold vendor_re. rewrite in_ways_seq.
  intros (w1 & s1 & g1 & w2 & H & _ & _).
  apply in_ways_group in H. destruct H as (g0 & H & _).
  apply in_ways_alt in H. unfold label_at. apply orb_true_iff.
  destruct H as [H|H]; apply in_ways_lits in H; destruct H as (_ & _ & Hp & _);
    [left|right]; exact Hp.
Qed.

End Tokens.

(** * Claims about [parse_invoice_text] *)

(** C6: for every text and every category, the parser emits a line of that
    category exactly when the weight extracted for it is non-zero; when no
    weight token matches the category, none is emitted, whether or not a cost
    is found. *)
Theorem line_iff_weight_nonzero (txt : text) (c : category) :
  exists p w usd,
    parse_invoice_text txt = Ok p /\
    grab txt (kind_of c) = Ok (w, usd) /\
    (has_line (name_of c) p <-> ~ (w == 0)%Q) /\
    (search (kg_re (kind_of c)) txt = None -> ~ has_line (name_of c) p).
Proof.
  destruct (parse_invoice_text_returns txt)
    as (rkg & rusd & lkg & lusd & ckg & cusd & p & v & Er & El & Ec & Ep & _).
  pose proof (grab_of_category txt c _ _ _ _ _ _ Er El Ec) as Eg.
  eexists _, _, _. split; [exact Ep|]. split; [exact Eg|].
  rewrite has_line_lines_of, truthy_iff. split; [reflexivity|].
  intros Hs Hw. apply Hw. apply grab_inv in Eg. destruct Eg as [Eg _].
  rewrite Hs in Eg. simpl in Eg. injection Eg as <-. reflexivity.
Qed.

Lemma line_iff_weight_nonzero_witness :
  exists p, parse_invoice_text (str "Landfill $32") = Ok p /\
            ~ has_line "landfill" p.
Proof.
  destruct (line_iff_weight_nonzero (str "Landfill $32") Landfill)
    as (p & w & usd & Ep & _ & _ & Hn).
  exists p. split; [exact Ep|]. apply Hn. vm_compute. reflexivity.
Defined.

(** C7: for every text, the line types of the returned list are recycling,
    then compost, then landfill, each present at most once. *)
Theorem lines_in_fixed_order (txt : text) :
  exists p (r c l : bool),
    parse_invoice_text txt = Ok p /\
    map line_type (lines p)
    = (if r then ["recycling"%string] else [])
        ++ (if c then ["compost"%string] else [])
        ++ (if l then ["landfill"%string] else []).
Proof.
  destruct (parse_invoice_text_returns txt)
    as (rkg & rusd & lkg & lusd & ckg & cusd & p & v & _ & _ & _ & Ep & _).
  eexists _, (truthy rkg), (truthy ckg), (truthy lkg). split; [exact Ep|].
  unfold lines_of, append_if. simpl lines.
  destruct (truthy rkg), (truthy ckg), (truthy lkg); reflexivity.
Qed.

(** C8: a text with no year-month token gets the period "2025-09", and a
    text with no "Invoice"/"Vendor" label gets the vendor "Unknown Hauler". *)
Theorem fallback_period_and_vendor (txt : text) :
  exists p,
    parse_invoice_text txt = Ok p /\
    (has_period_token txt = false -> period p = str "2025-09") /\
    (has_vendor_label txt = false -> vendor p = str "Unknown Hauler").
Proof.
  destruct (parse_invoice_text_returns txt)
    as (rkg & rusd & lkg & lusd & ckg & cusd & p & v & _ & _ & _ & Ep & Hp & Hv).
  eexists. split; [exact Ep|]. simpl. split; intros H.
  - apply Hp. exact (search_absent _ _ period_re_needs_token txt H).
  - apply Hv. exact (search_absent _ _ vendor_re_needs_label txt H).
Qed.

Lemma fallback_period_and_vendor_witness :
  exists p, parse_invoice_text (str "Recycling 5 kg $3") = Ok p /\
            period p = str "2025-09" /\ vendor p = str "Unknown Hauler".
Proof.
  destruct (fallback_period_and_vendor (str "Recycling 5 kg $3"))
    as (p & Ep & Hp & Hv).
  exists p. split; [exact Ep|]. split; [apply Hp|apply Hv]; vm_compute; reflexivity.
Defined.

(** * Where a category is first mentioned *)

Section Keywords.

Lemma kind_needs_keyword (c : category) (s : text) (g : captures) (x : way) :
  In x (ways (kind_of c) s g) -> keyword_at c s = true.
Proof.
  destruct x as [[w s'] g']. unfold keyword_at.
  destruct c; simpl kind_of; intros H.
  - apply in_ways_seq in H. destruct H as (? & ? & ? & ? & H & _ & _).
    apply in_ways_lits in H. tauto.
  - apply in_ways_seq in H. destruct H as (? & ? & ? & ? & H & _ & _).
    apply in_ways_lits in H. tauto.
  - apply in_ways_lits in H. tauto.
Qed.

Lemma kg_re_needs_keyword (c : category) (s : text) (x : way) :
  In x (ways (kg_re (kind_of c)) s []) -> keyword_at c s = true.
Proof.
  destruct x as [[w s'] g']. unfold kg_re. rewrite in_ways_seq.
  intros (? & ? & ? & ? & H & _ & _). eapply kind_needs_keyword; eauto.
Qed.

Lemma first_heading (c : category) (rest : text) (g : captures) :
  first (kind_of c) (heading c ++ " "%char :: rest) g
        (heading c, " "%char :: rest, g).
Proof. destruct c; unfold first; eexists; vm_compute; reflexivity. Qed.

Lemma first_opt (r : regex) (s : text) (g : captures) :
  no_groups r = true -> exists w s', first (opt r) s g (w, s', g).
Proof.
  intros Hn. unfold first, opt. simpl.
  destruct (ways r s g) as [|[[w s'] g'] tl] eqn:E.
  - simpl. eauto.
  - assert (g' = g) as ->.
    { apply (ways_no_groups r Hn s g w s'). rewrite E. left. reflexivity. }
    simpl. eauto.
Qed.

Lemma first_kg_tail_ton (post : text) (g : captures) :
  exists w s', first kg_tail (" "%char :: str "ton" ++ post) g (w, s', g).
Proof.
  destruct (first_opt (lit true "s"%char) post g eq_refl) as (w & s' & Hs).
  exists ([" "%char] ++ str "ton" ++ w), s'. unfold kg_tail.
  apply first_seq with (s1 := str "ton" ++ post) (g1 := g).
  - unfold first. eexists. vm_compute. reflexivity.
  - apply first_alt_r; [vm_compute; reflexivity|].
    apply first_seq with (s1 := post) (g1 := g); [|exact Hs].
    unfold first. eexists. vm_compute. reflexivity.
Qed.

Lemma first_number_digits (d : ascii) (ds rest : text) (g : captures) :
  is_digit d = true -> forallb is_digit ds = true ->
  first number_re (d :: ds ++ " "%char :: rest) g
        (d :: ds, " "%char :: rest, (1, d :: ds) :: g).
Proof.
  intros Hd Hds. unfold number_re. apply first_group.
  rewrite <- (app_nil_r (d :: ds)).
  apply first_seq with (s1 := " "%char :: rest) (g1 := g).
  - apply first_plus_run; auto.
  - unfold first. eexists. vm_compute. reflexivity.
Qed.

Lemma first_kg_tail_kg (rest : text) (g : captures) :
  first kg_tail (" "%char :: str "kg" ++ rest) g (str " kg", rest, g).
Proof. unfold first. eexists. vm_compute. reflexivity. Qed.

(** The weight pattern, started at a heading that is followed by a blank, a
    run of digits, a blank and a unit, captures exactly that run. *)
Lemma first_kg_re_digits (c : category) (ds rest w s' : text) :
  ds <> [] -> forallb is_digit ds = true ->
  first kg_tail (" "%char :: rest) [(1, ds)] (w, s', [(1, ds)]) ->
  first (kg_re (kind_of c)) (heading c ++ " "%char :: ds ++ " "%char :: rest) []
        (heading c ++ " "%char :: ds ++ w, s', [(1, ds)]).
Proof.
  intros Hn Hds Ht. destruct ds as [|d ds]; [congruence|].
  simpl in Hds. apply andb_true_iff in Hds. destruct Hds as [Hd Hds].
  unfold kg_re.
  eapply first_seq; [apply first_heading|].
  change ((d :: ds) ++ " "%char :: rest) with (d :: ds ++ " "%char :: rest).
  apply first_lazy_skip; [reflexivity|vm_compute; reflexivity|].
  eapply first_seq; [apply first_number_digits; assumption|exact Ht].
Qed.


Lemma decimal_integer (ds : text) :
  (decimal ds [] == inject_Z (digits_val ds))%Q.
Proof.
  unfold decimal. rewrite Qred_correct.
  change (List.length (@nil ascii)) with 0%nat.
  change (10 ^ Z.of_nat 0)%Z with 1%Z.
  change (digits_val []) with 0%Z.
  unfold Qeq, inject_Z. cbn [Qnum Qden Z.to_pos]. lia.
Qed.


End Keywords.

(** * Claims about the first mention of a category *)

Lemma first_kg_re_520 (post : text) :
  first (kg_re recycl_kind) (invoice_line_520 ++ post) []
        (str "Recycling 520 kg", str " $180" ++ post, [(1, str "520")]).
Proof.
  exact (first_kg_re_digits Recycling (str "520") (str "kg $180" ++ post)
           (str " kg") (str " $180" ++ post) ltac:(discriminate) eq_refl
           (first_kg_tail_kg (str " $180" ++ post) [(1, str "520")])).
Qed.

(** The weight search of a category starts at the first mention of the
    category keyword. *)
Lemma kg_search_at_first_mention (c : category) (pre rest : text)
    (w s' : text) (g : captures) :
  absent_before (keyword_at c) pre rest = true ->
  first (kg_re (kind_of c)) rest [] (w, s', g) ->
  search (kg_re (kind_of c)) (pre ++ rest)
  = Some (mkMatch (List.length pre) w g).
Proof.
  intros Ha Hf.
  rewrite (search_skip _ _ (kg_re_needs_keyword c) pre rest Ha).
  eapply first_search_from; eauto.
Qed.

(** C1, against the claim as stated: this text contains "Recycling 520 kg
    $180", yet the recycling weight is taken from the earlier recycling line,
    so no recycling line with weight 520 and cost 180 is returned. *)
Lemma earlier_recycling_line_wins :
  occurs (prefix_by eqc invoice_line_520) two_recycling_lines = true /\
  exists p,
    parse_invoice_text two_recycling_lines = Ok p /\
    ~ exists l, In l (lines p) /\ line_type l = "recycling"%string /\
                (weight_kg l == 520)%Q /\ (cost_usd l == 180)%Q.
Proof.
  split; [vm_compute; reflexivity|].
  eexists. split; [vm_compute; reflexivity|].
  intros (l & [<-|[]] & _ & Hw & _). vm_compute in Hw. discriminate.
Qed.

(** C1, amended: when the "Recycling" of "Recycling 520 kg $180" is the first
    mention of the keyword "recycl" in the text, the first line returned is
    a recycling line with weight 520. *)
Theorem first_recycling_weight_520 (pre post : text) :
  absent_before (keyword_at Recycling) pre (invoice_line_520 ++ post) = true ->
  exists p l rest,
    parse_invoice_text (pre ++ invoice_line_520 ++ post) = Ok p /\
    lines p = l :: rest /\
    line_type l = "recycling"%string /\ weight_kg l = 520%Q.
Proof.
  intros Ha.
  destruct (parse_invoice_text_returns (pre ++ invoice_line_520 ++ post))
    as (rkg & rusd & lkg & lusd & ckg & cusd & p & v & Er & _ & _ & Ep & _).
  apply grab_inv in Er. destruct Er as [Er _].
  change recycl_kind with (kind_of Recycling) in Er.
  rewrite (kg_search_at_first_mention Recycling pre _ _ _ _ Ha
             (first_kg_re_520 post)) in Er.
  change (Ok 520%Q = Ok rkg) in Er. injection Er as <-.
  eexists _, (mkLine "recycling" 520 rusd),
    (tl (lines_of 520 rusd lkg lusd ckg cusd)).
  split; [exact Ep|]. split; [|split; reflexivity].
  unfold lines_of, append_if. simpl lines.
  change (truthy 520) with true. cbv iota.
  destruct (truthy ckg), (truthy lkg); reflexivity.
Qed.

Lemma first_recycling_weight_520_witness :
  exists p l rest,
    parse_invoice_text
      (str "Vendor GreenCity " ++ invoice_line_520 ++ str " Landfill 260 kg")
    = Ok p /\
    lines p = l :: rest /\
    line_type l = "recycling"%string /\ weight_kg l = 520%Q.
Proof.
  apply (first_recycling_weight_520 (str "Vendor GreenCity ")
           (str " Landfill 260 kg")).
  vm_compute. reflexivity.
Defined.


(** * The KPI aggregator *)

Section Aggregator.

Lemma Qltb_true (a b : Q) : Qltb a b = true <-> (a < b)%Q.
Proof.
  unfold Qltb. rewrite negb_true_iff. split.
  - intros H. apply Qnot_le_lt. intros Hle. apply Qle_bool_iff in Hle. congruence.
  - intros H. destruct (Qle_bool b a) eqn:E; [|reflexivity].
    apply Qle_bool_iff in E. exfalso. exact (Qlt_not_le _ _ H E).
Qed.

Lemma recompute_diversion_returns (st : KpiState) :
  exists st', recompute_diversion st = Ok st' /\ same_totals st' st /\
              diversion_invariant st'.
Proof.
  unfold recompute_diversion. destruct (Qltb 0 (total_waste st)) eqn:E.
  - apply Qltb_true in E. unfold pydiv.
    destruct (Qeq_bool (total_waste st) 0) eqn:Ez.
    + apply Qeq_bool_iff in Ez. rewrite Ez in E. exfalso. exact (Qlt_irrefl _ E).
    + cbn [bind]. eexists. split; [reflexivity|]. split; [repeat split|].
      split; intros H; unfold total_waste in *; cbn in *.
      * reflexivity.
      * rewrite H in E. exfalso. exact (Qlt_irrefl _ E).
  - eexists. split; [reflexivity|]. split; [repeat split|].
    split; intros H; unfold total_waste in *; cbn in *.
    + apply Qltb_true in H. congruence.
    + reflexivity.
Qed.

Lemma ignore_failure_returns (c : result unit) : App.ignore_failure c = Ok tt.
Proof. destruct c as [[]|x]; reflexivity. Qed.

Lemma parse_mock_text :
  parse_invoice_text App.mock_text
  = Ok (mkParsed (str "2025-01") (str "GreenCity")
          [ mkLine "recycling" (Qred 15.2) (Qred 15.2);
            mkLine "landfill" (Qred 8.7) (Qred 8.7) ]).
Proof. vm_compute. reflexivity. Qed.

Lemma upload_image_returns (e : Ext) (file : Upload) (st : KpiState) :
  exists st',
    App.upload_image e file st
    = (Ok (App.mkImageResponse true App.mock_items), st') /\
    diversion_invariant st'.
Proof.
  unfold App.upload_image. rewrite !ignore_failure_returns.
  match goal with
  | |- context [recompute_diversion ?s] =>
      destruct (recompute_diversion_returns s) as (st' & E & _ & Hinv)
  end.
  rewrite E. eauto.
Qed.

Lemma upload_invoice_returns (e : Ext) (file : Upload) (st : KpiState) :
  exists st',
    App.upload_invoice e file st
    = (Ok (App.mkInvoiceResponse true
             (mkParsed (str "2025-01") (str "GreenCity")
                [ mkLine "recycling" (Qred 15.2) (Qred 15.2);
                  mkLine "landfill" (Qred 8.7) (Qred 8.7) ])), st') /\
    diversion_invariant st'.
Proof.
  unfold App.upload_invoice. rewrite parse_mock_text, !ignore_failure_returns.
  match goal with
  | |- context [recompute_diversion ?s] =>
      destruct (recompute_diversion_returns s) as (st' & E & _ & Hinv)
  end.
  rewrite E. eauto.
Qed.

End Aggregator.

(** * Claims about the endpoints and the aggregator *)

(** C2, end to end: what [parse_invoice_text] returns on the quoted text,
    which is also the payload of every invoice submission.  Two lines come
    back, not three, and each cost equals the weight: the claim's costs 45, 28
    and 32 and its compost line are not produced. *)
Theorem mock_invoice_actual_payload :
  parse_invoice_text App.mock_text
  = Ok (mkParsed (str "2025-01") (str "GreenCity")
          [ mkLine "recycling" (Qred 15.2) (Qred 15.2);
            mkLine "landfill" (Qred 8.7) (Qred 8.7) ]) /\
  forall (e : Ext) (file : Upload) (st : KpiState),
    fst (App.upload_invoice e file st)
    = Ok (App.mkInvoiceResponse true
            (mkParsed (str "2025-01") (str "GreenCity")
               [ mkLine "recycling" (Qred 15.2) (Qred 15.2);
                 mkLine "landfill" (Qred 8.7) (Qred 8.7) ])).
Proof.
  split; [exact parse_mock_text|].
  intros e file st. destruct (upload_invoice_returns e file st) as (st' & E & _).
  rewrite E. reflexivity.
Qed.

(** C5: image submission, invoice submission and reset all return normally
    (no division error) and leave the diversion invariant established. *)
Theorem diversion_invariant_after_mutation (e : Ext) (file : Upload) (st : KpiState) :
  (exists r st', App.upload_image e file st = (Ok r, st') /\
                 diversion_invariant st') /\
  (exists r st', App.upload_invoice e file st = (Ok r, st') /\
                 diversion_invariant st') /\
  (exists r st', App.reset_kpis st = (Ok r, st') /\
                 diversion_invariant st' /\ diversion_rate st' = 0%Q).
Proof.
  split; [|split].
  - destruct (upload_image_returns e file st) as (st' & E & H). eauto.
  - destruct (upload_invoice_returns e file st) as (st' & E & H). eauto.
  - eexists _, _. split; [reflexivity|]. split; [|reflexivity].
    split; intros _; reflexivity.
Qed.

(** C9: a route or line type outside recycle/recycling, compost and landfill
    leaves the state as it was, in both update chains. *)
Theorem unrecognized_update_ignored (st : KpiState) (name : string) (w : Q) :
  recognized name = false ->
  add_route st name w = st /\ add_line_type st name w = st.
Proof.
  unfold recognized, add_route, add_line_type. intros H.
  repeat (apply orb_false_iff in H; destruct H as [H ?]).
  repeat match goal with E : String.eqb _ _ = false |- _ => rewrite E; clear E end.
  auto.
Qed.

Lemma unrecognized_update_ignored_witness :
  add_route (mkKpi 1 2 3 0.5) "hazardous" 4 = mkKpi 1 2 3 0.5 /\
  add_line_type (mkKpi 1 2 3 0.5) "hazardous" 4 = mkKpi 1 2 3 0.5.
Proof.
  apply (unrecognized_update_ignored (mkKpi 1 2 3 0.5) "hazardous" 4).
  reflexivity.
Defined.

(** C3, against the claim as stated: with a key configured and the
    text-generation call failing, GET /kpis raises. *)
Lemma kpis_propagates_writer_failure :
  fst (App.kpis ext_writer_down kpi_zero)
  = Raise (ExternalError "text-generation") /\
  ~ returns_normally (fst (App.kpis ext_writer_down kpi_zero)).
Proof.
  split; [reflexivity|]. intros [a H]. discriminate H.
Qed.

(** C3, amended: whatever the outside world answers, the three POST
    endpoints return normally with ok = true (storage and warehouse failures
    are caught where they arise); GET /kpis returns normally when no
    text-generation key is configured or the text-generation call returns,
    and when a key is configured and that call raises, GET /kpis raises the
    same error. *)
Theorem endpoints_return_normally (e : Ext) (file : Upload) (st : KpiState) :
  (exists its st',
     App.upload_image e file st = (Ok (App.mkImageResponse true its), st')) /\
  (exists p st',
     App.upload_invoice e file st = (Ok (App.mkInvoiceResponse true p), st')) /\
  (exists msg st',
     App.reset_kpis st = (Ok (App.mkResetResponse true msg), st')) /\
  (WRITER_API_KEY e = [] \/ returns_normally (writer_chat e (KpiPrompt st)) ->
   returns_normally (fst (App.kpis e st))) /\
  (forall x, WRITER_API_KEY e <> [] ->
             writer_chat e (KpiPrompt st) = Raise x ->
             fst (App.kpis e st) = Raise x).
Proof.
  split; [|split; [|split; [|split]]].
  - destruct (upload_image_returns e file st) as (st' & E & _). eauto.
  - destruct (upload_invoice_returns e file st) as (st' & E & _). eauto.
  - eexists _, _. reflexivity.
  - unfold App.kpis, writer_kpi_summary, returns_normally.
    intros [H|[s H]].
    + rewrite H. simpl. eauto.
    + destruct (WRITER_API_KEY e); [simpl; eauto|].
      rewrite H. simpl. eauto.
  - intros x Hk Hx. unfold App.kpis, writer_kpi_summary.
    destruct (WRITER_API_KEY e); [congruence|]. rewrite Hx. reflexivity.
Qed.

Lemma endpoints_return_normally_witness :
  returns_normally (fst (App.kpis ext_ocr_reads kpi_zero)) /\
  fst (App.kpis ext_writer_down (mkKpi 1 2 3 0.5))
  = Raise (ExternalError "text-generation").
Proof.
  split.
  - destruct (endpoints_return_normally ext_ocr_reads some_upload kpi_zero)
      as (_ & _ & _ & H & _).
    apply H. left. reflexivity.
  - destruct (endpoints_return_normally ext_writer_down some_upload
                (mkKpi 1 2 3 0.5)) as (_ & _ & _ & _ & H).
    apply H; [discriminate|reflexivity].
Defined.

(** C4, against the claim as stated: no two submissions to [app.py] have
    different parsed payloads; in particular when OCR would read "Landfill 9
    kg $4" from the document, the payload is still that of the fixed text. *)
Lemma invoice_payload_ignores_document :
  (exists st',
     App.upload_invoice ext_ocr_reads some_upload kpi_zero
     = (Ok (App.mkInvoiceResponse true
              (mkParsed (str "2025-01") (str "GreenCity")
                 [ mkLine "recycling" (Qred 15.2) (Qred 15.2);
                   mkLine "landfill" (Qred 8.7) (Qred 8.7) ])), st')) /\
  ~ exists (e : Ext) (f1 f2 : Upload) (st1 st2 : KpiState)
           (r1 r2 : App.InvoiceResponse),
      fst (App.upload_invoice e f1 st1) = Ok r1 /\
      fst (App.upload_invoice e f2 st2) = Ok r2 /\
      App.parsed r1 <> App.parsed r2.
Proof.
  split.
  - destruct (upload_invoice_returns ext_ocr_reads some_upload kpi_zero)
      as (st' & E & _). eauto.
  - intros (e & f1 & f2 & st1 & st2 & r1 & r2 & E1 & E2 & Hne).
    destruct (upload_invoice_returns e f1 st1) as (s1 & H1 & _).
    destruct (upload_invoice_returns e f2 st2) as (s2 & H2 & _).
    rewrite H1 in E1. rewrite H2 in E2. simpl in E1, E2.
    injection E1 as <-. injection E2 as <-. apply Hne. reflexivity.
Qed.

(** C4, amended: in [app.py] the text handed to the heuristic is the fixed
    sample text for every submission, whatever the document and whatever OCR
    would answer; it is the packaged copy that takes the text from OCR, falls
    back to its own fixed text when the OCR step raises, and so returns a
    payload read from the document. *)
Theorem invoice_text_source (e : Ext) (file : Upload) (st : KpiState) :
  (exists p st',
     parse_invoice_text App.mock_text = Ok p /\
     App.upload_invoice e file st = (Ok (App.mkInvoiceResponse true p), st')) /\
  ApiFunction.ocr_text e (body file)
  = Ok (match (tex <- textract_detect_document_text e (body file) ;;
               ApiFunction.line_texts tex)%result with
        | Ok ls => ApiFunction.join_lines ls
        | Raise _ => ApiFunction.fallback_text
        end) /\
  ApiFunction.upload_invoice ext_ocr_reads some_upload
  = Ok (App.mkInvoiceResponse true
          (mkParsed (str "2025-09") (str "Unknown Hauler")
             [mkLine "landfill" 9 9])).
Proof.
  split; [|split].
  - destruct (upload_invoice_returns e file st) as (st' & E & _).
    eexists _, _. split; [exact parse_mock_text|exact E].
  - unfold ApiFunction.ocr_text.
    destruct (textract_detect_document_text e (body file)) as [tex|x];
      [|reflexivity].
    simpl. destruct (ApiFunction.line_texts tex); reflexivity.
  - vm_compute. reflexivity.
Qed.

(** * Further properties of the heuristic *)

Section HeuristicExtras.

Lemma digits_val_from_nonneg (s : text) (acc : Z) :
  (0 <= acc)%Z ->
  (0 <= fold_left (fun a c => (a * 10 + digit_val c)%Z) s acc)%Z.
Proof.
  revert acc. induction s as [|c s IH]; intros acc H; simpl; [exact H|].
  apply IH. unfold digit_val. lia.
Qed.

Lemma digits_val_nonneg (s : text) : (0 <= digits_val s)%Z.
Proof. apply digits_val_from_nonneg. lia. Qed.

Lemma decimal_nonneg (ip fp : text) : (0 <= decimal ip fp)%Q.
Proof.
  unfold decimal. rewrite Qred_correct. unfold Qle. cbn [Qnum Qden].
  pose proof (digits_val_nonneg ip). pose proof (digits_val_nonneg fp).
  assert (0 <= 10 ^ Z.of_nat (List.length fp))%Z by (apply Z.pow_nonneg; lia).
  nia.
Qed.

Lemma pyfloat_nonneg (w : text) (q : Q) : pyfloat w = Ok q -> (0 <= q)%Q.
Proof.
  unfold pyfloat. destruct (split_dot w) as [ip rest].
  match goal with |- context [if ?b then _ else _] => destruct b end;
    [|discriminate].
  intros H. injection H as <-. apply decimal_nonneg.
Qed.

Lemma float_group1_nonneg (m : option Match) (q : Q) :
  float_group1 m = Ok q -> (0 <= q)%Q.
Proof.
  unfold float_group1. destruct m as [mt|].
  - destruct (group mt 1); [apply pyfloat_nonneg|discriminate].
  - intros H. injection H as <-. apply Qle_refl.
Qed.

Lemma grab_nonneg (txt : text) (kind : regex) (kg usd : Q) :
  grab txt kind = Ok (kg, usd) -> (0 <= kg)%Q /\ (0 <= usd)%Q.
Proof.
  intros H. apply grab_inv in H. destruct H as [Hk Hu].
  split; eapply float_group1_nonneg; eauto.
Qed.

Lemma truthy_nonneg_pos (q : Q) : truthy q = true -> (0 <= q)%Q -> (0 < q)%Q.
Proof.
  intros Ht Hq. apply truthy_iff in Ht. apply Qle_lteq in Hq.
  destruct Hq as [Hq|Hq]; [exact Hq|]. exfalso. apply Ht. symmetry. exact Hq.
Qed.

Lemma skipn_length_app (w s : text) : skipn (List.length w) (w ++ s) = s.
Proof. induction w as [|c w IH]; simpl; auto. Qed.

Lemma kind_needs_mention (c : category) (s : text) (g : captures) (x : way) :
  In x (ways (kind_of c) s g) -> mention_at c s = true.
Proof.
  intros H. unfold mention_at. rewrite (kind_needs_keyword c s g x H).
  destruct x as [[w s'] g']. destruct c; simpl kind_of in H; [| |reflexivity].
  - apply in_ways_seq in H. destruct H as (w1 & s1 & ? & ? & H1 & H2 & _).
    apply in_ways_lits in H1. destruct H1 as (-> & Hl & _ & _).
    unfold plus in H2. apply in_ways_seq in H2.
    destruct H2 as (? & ? & ? & ? & H2 & _ & _).
    apply in_ways_chr in H2. destruct H2 as (a & Ha & _ & -> & _).
    cbn [keyword_of andb]. unfold word in Hl. rewrite <- Hl.
    rewrite skipn_length_app. exact Ha.
  - apply in_ways_seq in H. destruct H as (w1 & s1 & ? & ? & H1 & H2 & _).
    apply in_ways_lits in H1. destruct H1 as (-> & Hl & _ & _).
    unfold plus in H2. apply in_ways_seq in H2.
    destruct H2 as (? & ? & ? & ? & H2 & _ & _).
    apply in_ways_chr in H2. destruct H2 as (a & Ha & _ & -> & _).
    cbn [keyword_of andb]. unfold word in Hl. rewrite <- Hl.
    rewrite skipn_length_app. exact Ha.
Qed.

Lemma kg_re_needs_mention (c : category) (s : text) (x : way) :
  In x (ways (kg_re (kind_of c)) s []) -> mention_at c s = true.
Proof.
  destruct x as [[w s'] g']. unfold kg_re. rewrite in_ways_seq.
  intros (? & ? & ? & ? & H & _ & _). eapply kind_needs_mention; eauto.
Qed.

End HeuristicExtras.

(** X1: [parse_invoice_text] returns normally on every text: [float] is
    only ever handed a group of digits with at most one point inside, and
    the groups read for period and vendor are always set. *)
Theorem parse_invoice_text_never_raises (txt : text) :
  returns_normally (parse_invoice_text txt).
Proof.
  destruct (parse_invoice_text_returns txt)
    as (rkg & rusd & lkg & lusd & ckg & cusd & p & v & _ & _ & _ & Ep & _).
  eexists. exact Ep.
Qed.

(** X2: every line returned has one of the three line types, a weight
    greater than zero and a cost that is not negative. *)
Theorem returned_lines_well_formed (txt : text) :
  exists p,
    parse_invoice_text txt = Ok p /\
    Forall (fun l => known_line_type (line_type l) = true /\
                     (0 < weight_kg l)%Q /\ (0 <= cost_usd l)%Q)
           (lines p).
Proof.
  destruct (parse_invoice_text_returns txt)
    as (rkg & rusd & lkg & lusd & ckg & cusd & p & v & Er & El & Ec & Ep & _).
  eexists. split; [exact Ep|]. simpl lines.
  apply grab_nonneg in Er, El, Ec.
  apply Forall_forall. intros l Hin. unfold lines_of in Hin.
  repeat (apply in_append_if in Hin; destruct Hin as [Hin|[Hb ->]]);
    [destruct Hin| | |]; simpl;
    (split; [reflexivity|]); split; try tauto;
    apply truthy_nonneg_pos; tauto.
Qed.

(** X4: when no mention of a category is one its pattern can match (for
    recycling and compost the keyword must be followed by a word character,
    so "Compost 12.1 kg" does not count), no line of that category is
    returned. *)
Theorem no_matchable_mention_no_line (txt : text) (c : category) :
  occurs (mention_at c) txt = false ->
  exists p, parse_invoice_text txt = Ok p /\ ~ has_line (name_of c) p.
Proof.
  intros Ho.
  destruct (parse_invoice_text_returns txt)
    as (rkg & rusd & lkg & lusd & ckg & cusd & p & v & Er & El & Ec & Ep & _).
  pose proof (grab_of_category txt c _ _ _ _ _ _ Er El Ec) as Eg.
  eexists. split; [exact Ep|].
  rewrite has_line_lines_of, truthy_iff. intros Hw. apply Hw.
  apply grab_inv in Eg. destruct Eg as [Eg _].
  rewrite (search_absent _ _ (kg_re_needs_mention c) txt Ho) in Eg.
  simpl in Eg. injection Eg as <-. reflexivity.
Qed.

Lemma no_matchable_mention_no_line_witness :
  exists p, parse_invoice_text (str "Compost 12.1 kg $28") = Ok p /\
            ~ has_line "compost" p.
Proof.
  apply (no_matchable_mention_no_line (str "Compost 12.1 kg $28") Compost).
  vm_compute. reflexivity.
Defined.

(** * The cost pattern reads the weight *)

Section CostReadsWeight.

Lemma first_chr (p : ascii -> bool) (c : ascii) (s : text) (g : captures) :
  p c = true -> first (Chr p) (c :: s) g ([c], s, g).
Proof. intros H. unfold first. simpl. rewrite H. eauto. Qed.

(** The lazy star takes nothing when what follows matches at once. *)
Lemma first_lazy_zero (p : ascii -> bool) (b : regex) (s : text)
    (g : captures) (x : way) :
  first b s g x -> first (Seq (Star false p) b) s g x.
Proof.
  intros [t E]. unfold first. simpl.
  destruct (star_lazy_first p s) as [tl Etl]. rewrite Etl. simpl.
  rewrite E. destruct x as [[w s'] g']. simpl. eauto.
Qed.

Lemma digit_run_inv (w : text) :
  digit_run w = true ->
  exists d ds, w = d :: ds /\ is_digit d = true /\ forallb is_digit ds = true.
Proof.
  unfold digit_run. intros H. apply andb_true_iff in H. destruct H as [Hd Hn].
  destruct w as [|d ds]; [discriminate|].
  simpl in Hd. apply andb_true_iff in Hd. exists d, ds. tauto.
Qed.

Lemma first_number_literal (ip : text) (fp : option text) (rest : text)
    (g : captures) :
  well_formed_literal ip fp = true ->
  first number_re (literal ip fp ++ " "%char :: rest) g
        (literal ip fp, " "%char :: rest, (1, literal ip fp) :: g).
Proof.
  unfold well_formed_literal. intros H. apply andb_true_iff in H.
  destruct H as [Hip Hfp].
  apply digit_run_inv in Hip. destruct Hip as (d & ds & -> & Hd & Hds).
  destruct fp as [f|]; unfold literal.
  - apply digit_run_inv in Hfp. destruct Hfp as (e & es & -> & He & Hes).
    unfold number_re. apply first_group.
    rewrite <- app_assoc.
    change ((d :: ds) ++ ("."%char :: e :: es) ++ " "%char :: rest)
      with (d :: ds ++ "."%char :: e :: es ++ " "%char :: rest).
    apply first_seq with (s1 := "."%char :: e :: es ++ " "%char :: rest) (g1 := g).
    + apply first_plus_run; auto.
    + apply first_alt_l.
      apply (first_seq (Chr is_dot) (plus is_digit) _ g ["."%char]
               (e :: es ++ " "%char :: rest) g (e :: es) _ g).
      * apply first_chr. reflexivity.
      * apply first_plus_run; auto.
  - rewrite app_nil_r. apply first_number_digits; assumption.
Qed.

Lemma first_kg_tail_unit (ton : bool) (rest : text) (g : captures) :
  exists w s', first kg_tail (" "%char :: unit_text ton ++ rest) g (w, s', g).
Proof.
  destruct ton.
  - apply first_kg_tail_ton.
  - eexists _, _. apply first_kg_tail_kg.
Qed.

Lemma first_kg_re_literal (c : category) (ip : text) (fp : option text)
    (rest w s' : text) :
  well_formed_literal ip fp = true ->
  first kg_tail (" "%char :: rest) [(1, literal ip fp)]
        (w, s', [(1, literal ip fp)]) ->
  first (kg_re (kind_of c))
        (heading c ++ " "%char :: literal ip fp ++ " "%char :: rest) []
        (heading c ++ " "%char :: literal ip fp ++ w, s', [(1, literal ip fp)]).
Proof.
  intros Hw Ht. unfold kg_re.
  eapply first_seq; [apply first_heading|].
  apply first_lazy_skip; [reflexivity|vm_compute; reflexivity|].
  eapply first_seq; [apply first_number_literal; assumption|exact Ht].
Qed.

Lemma first_usd_re_literal (c : category) (ip : text) (fp : option text)
    (rest : text) :
  well_formed_literal ip fp = true ->
  first (usd_re (kind_of c))
        (heading c ++ " "%char :: literal ip fp ++ " "%char :: rest) []
        (heading c ++ " "%char :: literal ip fp, " "%char :: rest,
         [(1, literal ip fp)]).
Proof.
  intros Hw. unfold usd_re.
  eapply first_seq; [apply first_heading|].
  apply first_lazy_zero.
  apply (first_seq (opt (Chr is_dollar)) _ _ [] []
           (" "%char :: literal ip fp ++ " "%char :: rest) []).
  { apply first_alt_r; [reflexivity|]. unfold first. simpl. eauto. }
  apply (first_seq (opt (Chr is_space)) number_re _ [] [" "%char]
           (literal ip fp ++ " "%char :: rest) []).
  { apply first_alt_l. apply first_chr. reflexivity. }
  apply first_number_literal. exact Hw.
Qed.

Lemma usd_re_needs_keyword (c : category) (s : text) (x : way) :
  In x (ways (usd_re (kind_of c)) s []) -> keyword_at c s = true.
Proof.
  destruct x as [[w s'] g']. unfold usd_re. rewrite in_ways_seq.
  intros (? & ? & ? & ? & H & _ & _). eapply kind_needs_keyword; eauto.
Qed.

Lemma usd_search_at_first_mention (c : category) (pre rest : text)
    (w s' : text) (g : captures) :
  absent_before (keyword_at c) pre rest = true ->
  first (usd_re (kind_of c)) rest [] (w, s', g) ->
  search (usd_re (kind_of c)) (pre ++ rest)
  = Some (mkMatch (List.length pre) w g).
Proof.
  intros Ha Hf.
  rewrite (search_skip _ _ (usd_re_needs_keyword c) pre rest Ha).
  eapply first_search_from; eauto.
Qed.

Lemma pyfloat_literal (ip : text) (fp : option text) :
  well_formed_literal ip fp = true ->
  pyfloat (literal ip fp) = Ok (literal_value ip fp).
Proof.
  unfold well_formed_literal, digit_run, literal, literal_value. intros H.
  apply andb_true_iff in H. destruct H as [Hip Hfp].
  apply andb_true_iff in Hip. destruct Hip as [Hd Hn].
  assert (ip <> []) by (destruct ip; [discriminate|congruence]).
  destruct fp as [f|].
  - apply andb_true_iff in Hfp. destruct Hfp as [Hf _].
    apply pyfloat_point; auto.
  - rewrite app_nil_r. apply pyfloat_digits; auto.
Qed.

End CostReadsWeight.

(** X3: when the first mention of a category is its heading followed by a
    blank, a decimal literal, a blank and the unit "kg" or "ton", both the
    weight and the cost extracted for the category are the value of that
    literal, whatever follows the unit (a dollar amount included). *)
Theorem cost_repeats_weight (c : category) (pre ip : text) (fp : option text)
    (ton : bool) (rest : text) :
  well_formed_literal ip fp = true ->
  absent_before (keyword_at c) pre
    (heading c ++ str " " ++ literal ip fp ++ str " " ++ unit_text ton ++ rest)
  = true ->
  grab (pre ++ heading c ++ str " " ++ literal ip fp ++ str " "
            ++ unit_text ton ++ rest)
       (kind_of c)
  = Ok (literal_value ip fp, literal_value ip fp).
Proof.
  intros Hw Ha.
  change (heading c ++ str " " ++ literal ip fp ++ str " " ++ unit_text ton ++ rest)
    with (heading c ++ " "%char :: literal ip fp
            ++ " "%char :: unit_text ton ++ rest) in *.
  destruct (first_kg_tail_unit ton rest [(1, literal ip fp)]) as (w & s' & Ht).
  unfold grab.
  rewrite (kg_search_at_first_mention c pre _ _ _ _ Ha
             (first_kg_re_literal c ip fp _ w s' Hw Ht)).
  rewrite (usd_search_at_first_mention c pre _ _ _ _ Ha
             (first_usd_re_literal c ip fp _ Hw)).
  unfold float_group1, group. cbn [m_groups lookup Nat.eqb].
  rewrite (pyfloat_literal ip fp Hw). reflexivity.
Qed.

Lemma cost_repeats_weight_witness :
  grab (str "Vendor GreenCity
Landfill 8.7 kg $32") landfill_kind
  = Ok (Qred 8.7, Qred 8.7).
Proof.
  apply (cost_repeats_weight Landfill (str "Vendor GreenCity
") (str "8") (Some (str "7")) false (str " $32")).
  - reflexivity.
  - vm_compute. reflexivity.
Defined.

(** * What the period and the vendor can be *)

Section PeriodVendor.

Lemma star_greedy_consumes (p : ascii -> bool) (s w r : text) :
  In (w, r) (star_greedy p s) -> s = w ++ r.
Proof.
  revert w r. induction s as [|c s IH]; simpl; intros w r H.
  - destruct H as [H|[]]. injection H as <- <-. reflexivity.
  - destruct (p c).
    + apply in_app_or in H. destruct H as [H|[H|[]]].
      * apply in_map_iff in H. destruct H as [[w' r'] [E H]].
        injection E as <- <-. simpl. f_equal. apply IH. exact H.
      * injection H as <- <-. reflexivity.
    + destruct H as [H|[]]. injection H as <- <-. reflexivity.
Qed.

Lemma star_lazy_consumes (p : ascii -> bool) (s w r : text) :
  In (w, r) (star_lazy p s) -> s = w ++ r.
Proof.
  revert w r. induction s as [|c s IH]; simpl; intros w r H.
  - destruct H as [H|[]]. injection H as <- <-. reflexivity.
  - destruct (p c).
    + destruct H as [H|H].
      * injection H as <- <-. reflexivity.
      * apply in_map_iff in H. destruct H as [[w' r'] [E H]].
        injection E as <- <-. simpl. f_equal. apply IH. exact H.
    + destruct H as [H|[]]. injection H as <- <-. reflexivity.
Qed.

(** What a way consumes and what it leaves make up the text it started on. *)
Lemma ways_consume (r : regex) (s : text) (g : captures)
    (w s' : text) (g' : captures) :
  In (w, s', g') (ways r s g) -> s = w ++ s'.
Proof.
  revert s g w s' g'.
  induction r as [|p|a IHa b IHb|a IHa b IHb|gr p|n r IH]; intros s g w s' g' H.
  - apply in_ways_eps in H. destruct H as (-> & -> & _). reflexivity.
  - apply in_ways_chr in H. destruct H as (c & _ & -> & -> & _). reflexivity.
  - apply in_ways_seq in H. destruct H as (w1 & s1 & g1 & w2 & H1 & H2 & ->).
    apply IHa in H1. apply IHb in H2. subst. apply app_assoc.
  - apply in_ways_alt in H. destruct H as [H|H]; eauto.
  - simpl in H. apply in_map_iff in H. destruct H as [[w0 r0] [E H]].
    simpl in E. injection E as <- <- _.
    destruct gr; [eapply star_greedy_consumes | eapply star_lazy_consumes]; eauto.
  - apply in_ways_group in H. destruct H as (g1 & H & _). eauto.
Qed.

Lemma search_from_some_at (r : regex) (s : text) (i : nat) (mt : Match) :
  search_from r i s = Some mt ->
  exists pre s' s'' rest,
    s = pre ++ s' /\ ways r s' [] = (m_whole mt, s'', m_groups mt) :: rest.
Proof.
  revert i. induction s as [|c s IH]; intros i; simpl; unfold match_at.
  - destruct (ways r [] []) as [|[[w s''] g] rest] eqn:E; [discriminate|].
    intros H. injection H as <-. exists [], [], s'', rest. auto.
  - destruct (ways r (c :: s) []) as [|[[w s''] g] rest] eqn:E.
    + intros H. apply IH in H. destruct H as (pre & s' & s'' & rest & -> & H).
      exists (c :: pre), s', s'', rest. auto.
    + intros H. injection H as <-. exists [], (c :: s), s'', rest. auto.
Qed.

(** A match is a piece of the text searched. *)
Lemma search_some_piece (r : regex) (txt : text) (mt : Match) :
  search r txt = Some mt ->
  exists pre post g, txt = pre ++ m_whole mt ++ post /\
                     In (m_whole mt, post, m_groups mt) (ways r g []).
Proof.
  intros H. apply search_from_some_at in H.
  destruct H as (pre & s' & s'' & rest & -> & E).
  assert (Hin : In (m_whole mt, s'', m_groups mt) (ways r s' [])).
  { rewrite E. left. reflexivity. }
  exists pre, s'', s'. split; [|exact Hin].
  f_equal. eapply ways_consume; eauto.
Qed.

Lemma period_re_shape (s w s' : text) (g' : captures) :
  In (w, s', g') (ways period_re s []) -> is_period w = true.
Proof.
  unfold period_re. rewrite in_ways_group. intros (g1 & H & _).
  apply in_ways_seq in H. destruct H as (w1 & s1 & ? & ? & H1 & H & ->).
  apply in_ways_lits in H1. destruct H1 as (-> & Hl & Hp & _).
  apply in_ways_seq in H. destruct H as (? & s3 & ? & ? & H3 & H & ->).
  apply in_ways_chr in H3. destruct H3 as (c3 & Hc3 & -> & -> & _).
  apply in_ways_seq in H. destruct H as (? & s4 & ? & ? & H4 & H & ->).
  apply in_ways_chr in H4. destruct H4 as (c4 & Hc4 & -> & -> & _).
  apply in_ways_seq in H. destruct H as (? & s5 & ? & ? & H5 & H & ->).
  apply in_ways_chr in H5. destruct H5 as (c5 & Hc5 & -> & -> & _).
  apply in_ways_seq in H. destruct H as (? & s6 & ? & w7 & H6 & H & ->).
  apply in_ways_chr in H6. destruct H6 as (c6 & Hc6 & -> & -> & _).
  destruct w1 as [|a [|b [|? ?]]]; try discriminate Hl.
  unfold char_eq in Hp. cbn [prefix_by str list_ascii_of_string app] in Hp.
  rewrite andb_true_r in Hp. apply andb_true_iff in Hp. destruct Hp as [Ha Hb].
  unfold opt in H. apply in_ways_alt in H. destruct H as [H|H].
  - apply in_ways_chr in H. destruct H as (c7 & Hc7 & -> & _ & _).
    cbn [app is_period]. rewrite Ha, Hb, Hc3, Hc4, Hc5, Hc6, Hc7. reflexivity.
  - apply in_ways_eps in H. destruct H as (-> & _ & _).
    cbn [app is_period]. rewrite Ha, Hb, Hc3, Hc4, Hc5, Hc6. reflexivity.
Qed.

(** The fields of the result, read off the two searches. *)
Lemma parse_invoice_text_fields (txt : text) :
  exists ls,
    parse_invoice_text txt
    = Ok (mkParsed
            (match search period_re txt with
             | Some mt => m_whole mt
             | None => fallback_period
             end)
            (match search vendor_re txt with
             | Some mt =>
                 strip (match group mt 2 with Some w => w | None => [] end)
             | None => fallback_vendor
             end)
            ls).
Proof.
  destruct (grab_returns txt recycl_kind eq_refl) as (rkg & rusd & Er).
  destruct (grab_returns txt landfill_kind eq_refl) as (lkg & lusd & El).
  destruct (grab_returns txt compost_kind eq_refl) as (ckg & cusd & Ec).
  unfold parse_invoice_text. rewrite Er, El, Ec. cbn [bind].
  destruct (search period_re txt) as [pm|] eqn:Ep;
    [rewrite (period_group1 _ _ Ep)|]; cbn [bind];
    (destruct (search vendor_re txt) as [vm|] eqn:Ev;
     [destruct (vendor_group2 _ _ Ev) as [w Ew]; rewrite Ew|]);
    cbn [bind]; eexists; reflexivity.
Qed.

Lemma lstrip_split (s : text) :
  exists sp, s = sp ++ lstrip s /\ forallb is_space sp = true.
Proof.
  induction s as [|c s IH]; simpl.
  - exists []. auto.
  - destruct (is_space c) eqn:E.
    + destruct IH as (sp & Hs & Hsp). exists (c :: sp). simpl.
      rewrite E, Hsp. split; [f_equal; exact Hs|reflexivity].
    + exists []. auto.
Qed.

Lemma lstrip_head (s : text) :
  match lstrip s with
  | c :: _ => is_space c = false
  | [] => True
  end.
Proof.
  induction s as [|c s IH]; simpl; [exact I|].
  destruct (is_space c) eqn:E; [exact IH|exact E].
Qed.

Lemma strip_split (s : text) :
  exists l r, s = l ++ strip s ++ r.
Proof.
  unfold strip.
  destruct (lstrip_split s) as (l & Hl & _).
  destruct (lstrip_split (rev (lstrip s))) as (r & Hr & _).
  exists l, (rev r). rewrite Hl at 1. f_equal.
  rewrite <- rev_app_distr, <- Hr, rev_involutive. reflexivity.
Qed.

Lemma strip_trimmed (s : text) : trimmed (strip s) = true.
Proof.
  unfold trimmed. apply andb_true_iff. split.
  - destruct (strip_split s) as (l & r & _).
    unfold strip.
    destruct (lstrip_split (rev (lstrip s))) as (sp & Hs & _).
    pose proof (lstrip_head s) as Hh.
    assert (E : lstrip s = rev (lstrip (rev (lstrip s))) ++ rev sp).
    { rewrite <- rev_app_distr, <- Hs, rev_involutive. reflexivity. }
    destruct (rev (lstrip (rev (lstrip s)))) as [|c u]; [reflexivity|].
    rewrite E in Hh. simpl in Hh. rewrite Hh. reflexivity.
  - unfold strip. rewrite rev_involutive.
    pose proof (lstrip_head (rev (lstrip s))) as Hh.
    destruct (lstrip (rev (lstrip s))) as [|c u]; [reflexivity|].
    rewrite Hh. reflexivity.
Qed.

Lemma strip_forallb (p : ascii -> bool) (s : text) :
  forallb p s = true -> forallb p (strip s) = true.
Proof.
  destruct (strip_split s) as (l & r & E). intros H. rewrite E in H.
  rewrite !forallb_app in H.
  apply andb_true_iff in H. destruct H as [_ H].
  apply andb_true_iff in H. tauto.
Qed.

Lemma vendor_re_group2 (s w s' : text) (g' : captures) :
  In (w, s', g') (ways vendor_re s []) ->
  exists n, lookup 2 g' = Some n /\ forallb letter_or_blank n = true.
Proof.
  unfold vendor_re. rewrite in_ways_seq.
  intros (w1 & s1 & g1 & w2 & _ & H & _).
  apply in_ways_seq in H. destruct H as (w3 & s3 & g3 & w4 & _ & H & _).
  apply in_ways_group in H. destruct H as (g5 & H & ->).
  apply in_ways_plus in H. destruct H as (Hf & _ & _).
  exists w4. split; [reflexivity|exact Hf].
Qed.

End PeriodVendor.

(** X5: for every text, the period returned is a year-month string (20,
    two digits, one of - / ., one or two digits) and is either the fallback
    "2025-09" or a piece of the text. *)
Theorem period_is_year_month (txt : text) :
  exists p,
    parse_invoice_text txt = Ok p /\
    is_period (period p) = true /\
    (period p = str "2025-09" \/ exists pre post, txt = pre ++ period p ++ post).
Proof.
  destruct (parse_invoice_text_fields txt) as (ls & Ep).
  eexists. split; [exact Ep|]. simpl period.
  destruct (search period_re txt) as [mt|] eqn:E.
  - apply search_some_piece in E. destruct E as (pre & post & s & Et & Hin).
    split; [eapply period_re_shape; eauto|]. right. eauto.
  - split; [reflexivity|]. left. reflexivity.
Qed.

(** X6: for every text whose code points are all below 256 (the texts of
    this model), the vendor returned consists of ASCII letters and blanks
    only and has no white space at either end (it may be empty).  Beyond
    code point 255, [[A-Za-z ]] under [re.I] also matches U+0130, U+0131,
    U+017F and U+212A. *)
Theorem vendor_is_trimmed_letters (txt : text) :
  exists p,
    parse_invoice_text txt = Ok p /\
    forallb letter_or_blank (vendor p) = true /\ trimmed (vendor p) = true.
Proof.
  destruct (parse_invoice_text_fields txt) as (ls & Ep).
  eexists. split; [exact Ep|]. simpl vendor.
  destruct (search vendor_re txt) as [mt|] eqn:E.
  - apply search_some_piece in E. destruct E as (pre & post & s & _ & Hin).
    apply vendor_re_group2 in Hin. destruct Hin as (n & Hg & Hf).
    unfold group. rewrite Hg. split; [apply strip_forallb, Hf|apply strip_trimmed].
  - split; reflexivity.
Qed.

Section FirstPeriod.

Lemma first_seq_chr (p : ascii -> bool) (b : regex) (c : ascii) (s : text)
    (g : captures) (w s' : text) (g' : captures) :
  p c = true -> first b s g (w, s', g') ->
  first (Seq (Chr p) b) (c :: s) g (c :: w, s', g').
Proof.
  intros Hc Hb.
  exact (first_seq (Chr p) b (c :: s) g [c] s g w s' g' (first_chr p c s g Hc) Hb).
Qed.

Lemma first_eps (s : text) (g : captures) : first Eps s g ([], s, g).
Proof. unfold first. simpl. eauto. Qed.

Lemma first_opt_digit (tl post : text) (g : captures) :
  match tl with
  | [] => starts_with_digit post = false
  | [c] => is_digit c = true
  | _ => False
  end ->
  first (opt (Chr is_digit)) (tl ++ post) g (tl, post, g).
Proof.
  destruct tl as [|c [|? ?]]; intros H; [| |destruct H].
  - apply first_alt_r; [|apply first_eps].
    simpl. destruct post as [|x post]; [reflexivity|].
    simpl in H. rewrite H. reflexivity.
  - apply first_alt_l. apply first_chr. exact H.
Qed.

Lemma first_period_re (tok post : text) :
  is_period tok = true ->
  (List.length tok = 6 -> starts_with_digit post = false) ->
  first period_re (tok ++ post) [] (tok, post, [(1, tok)]).
Proof.
  destruct tok as [|a [|b [|c [|d [|e [|f tl]]]]]]; try discriminate.
  cbn [is_period]. intros H Hp.
  repeat (apply andb_true_iff in H; destruct H as [H ?]).
  unfold period_re. apply first_group.
  apply (first_seq (word false "20") _ _ [] [a; b]
           (c :: d :: e :: f :: tl ++ post) [] (c :: d :: e :: f :: tl) post []).
  { unfold word. cbn [str list_ascii_of_string lits].
    apply first_seq_chr; [assumption|].
    replace [b] with (b :: []) by reflexivity.
    apply first_seq_chr; [assumption|apply first_eps]. }
  do 4 (apply first_seq_chr; [assumption|]).
  apply first_opt_digit.
  destruct tl as [|g [|? ?]]; [apply Hp; reflexivity|assumption|discriminate].
Qed.

End FirstPeriod.

(** X7: the period returned is the leftmost year-month token of the text,
    taken with both month digits when a second digit follows. *)
Theorem leftmost_period_returned (pre tok post : text) :
  is_period tok = true ->
  absent_before period_token_at pre (tok ++ post) = true ->
  (List.length tok = 6 -> starts_with_digit post = false) ->
  exists p, parse_invoice_text (pre ++ tok ++ post) = Ok p /\ period p = tok.
Proof.
  intros Ht Ha Hd.
  destruct (parse_invoice_text_fields (pre ++ tok ++ post)) as (ls & Ep).
  eexists. split; [exact Ep|]. simpl period.
  rewrite (search_skip _ _ period_re_needs_token pre (tok ++ post) Ha).
  rewrite (first_search_from period_re _ _ tok post [(1, tok)]
             (first_period_re tok post Ht Hd)).
  reflexivity.
Qed.

Lemma leftmost_period_returned_witness :
  exists p,
    parse_invoice_text (str "Invoice 2014 for 2025-1 and 2025-12") = Ok p /\
    period p = str "2025-1".
Proof.
  apply (leftmost_period_returned (str "Invoice 2014 for ") (str "2025-1")
           (str " and 2025-12")).
  - reflexivity.
  - vm_compute. reflexivity.
  - intros _. reflexivity.
Defined.

(** * Histories of requests *)

Section Histories.

Lemma add_route_recycle (st : KpiState) (w : Q) :
  add_route st "recycle" w
  = mkKpi (recycle_kg st + w) (compost_kg st) (landfill_kg st) (diversion_rate st).
Proof. reflexivity. Qed.

Lemma add_route_landfill (st : KpiState) (w : Q) :
  add_route st "landfill" w
  = mkKpi (recycle_kg st) (compost_kg st) (landfill_kg st + w) (diversion_rate st).
Proof. reflexivity. Qed.

Lemma upload_image_effect (e : Ext) (file : Upload) (st : KpiState) :
  let st' := snd (App.upload_image e file st) in
  (recycle_kg st' == recycle_kg st + 0.07)%Q /\
  compost_kg st' = compost_kg st /\
  (landfill_kg st' == landfill_kg st + 0.15)%Q /\
  diversion_invariant st'.
Proof.
  unfold App.upload_image. rewrite !ignore_failure_returns.
  match goal with
  | |- context [recompute_diversion ?s] =>
      destruct (recompute_diversion_returns s) as (st' & E & (Hr & Hc & Hl) & Hinv)
  end.
  rewrite E. cbn [snd]. rewrite Hr, Hc, Hl.
  unfold App.mock_items. cbn [fold_left route est_weight_kg].
  rewrite !add_route_recycle, add_route_landfill.
  cbn [recycle_kg compost_kg landfill_kg].
  split; [|split; [reflexivity|split; [reflexivity|exact Hinv]]].
  rewrite <- Qplus_assoc. apply Qplus_comp; reflexivity.
Qed.

Lemma upload_invoice_effect (e : Ext) (file : Upload) (st : KpiState) :
  let st' := snd (App.upload_invoice e file st) in
  (recycle_kg st' == recycle_kg st + 15.2)%Q /\
  compost_kg st' = compost_kg st /\
  (landfill_kg st' == landfill_kg st + 8.7)%Q /\
  diversion_invariant st'.
Proof.
  unfold App.upload_invoice. rewrite parse_mock_text, !ignore_failure_returns.
  match goal with
  | |- context [recompute_diversion ?s] =>
      destruct (recompute_diversion_returns s) as (st' & E & (Hr & Hc & Hl) & Hinv)
  end.
  rewrite E. cbn [snd]. rewrite Hr, Hc, Hl.
  cbn [lines fold_left line_type weight_kg].
  change (add_line_type st "recycling" (Qred 15.2))
    with (mkKpi (recycle_kg st + Qred 15.2) (compost_kg st) (landfill_kg st)
                (diversion_rate st)).
  match goal with
  | |- context [add_line_type ?s "landfill" ?w] =>
      change (add_line_type s "landfill" w)
        with (mkKpi (recycle_kg s) (compost_kg s) (landfill_kg s + w)
                    (diversion_rate s))
  end.
  cbn [recycle_kg compost_kg landfill_kg].
  split; [|split; [reflexivity|split; [|exact Hinv]]];
    apply Qplus_comp; reflexivity.
Qed.

Lemma count_succ (n : nat) : (count (S n) == count n + 1)%Q.
Proof.
  unfold count. rewrite Nat2Z.inj_succ, <- Z.add_1_r, inject_Z_plus. reflexivity.
Qed.

Lemma count_nonneg (n : nat) : (0 <= count n)%Q.
Proof. unfold count, Qle. simpl. lia. Qed.

Lemma run_totals (history : list (Ext * request)) (st : KpiState)
    (images invoices : nat) :
  (recycle_kg st == 0.07 * count images + 15.2 * count invoices)%Q ->
  (compost_kg st == 0)%Q ->
  (landfill_kg st == 0.15 * count images + 8.7 * count invoices)%Q ->
  let st' := run history st in
  let n := submissions history images invoices in
  (recycle_kg st' == 0.07 * count (fst n) + 15.2 * count (snd n))%Q /\
  (compost_kg st' == 0)%Q /\
  (landfill_kg st' == 0.15 * count (fst n) + 8.7 * count (snd n))%Q.
Proof.
  revert st images invoices.
  induction history as [|[e r] history IH]; intros st a b Hr Hc Hl.
  - simpl. auto.
  - destruct r as [file|file| |]; cbn [run submissions serve].
    + destruct (upload_image_effect e file st) as (Er & Ec & El & _).
      apply IH.
      * rewrite Er, Hr, count_succ. ring.
      * rewrite Ec. exact Hc.
      * rewrite El, Hl, count_succ. ring.
    + destruct (upload_invoice_effect e file st) as (Er & Ec & El & _).
      apply IH.
      * rewrite Er, Hr, count_succ. ring.
      * rewrite Ec. exact Hc.
      * rewrite El, Hl, count_succ. ring.
    + assert (E : snd (App.kpis e st) = st).
      { unfold App.kpis. destruct (writer_kpi_summary e st); reflexivity. }
      rewrite E. apply IH; assumption.
    + apply IH; reflexivity.
Qed.

Lemma run_invariant (history : list (Ext * request)) (st : KpiState) :
  diversion_invariant st -> diversion_invariant (run history st).
Proof.
  revert st. induction history as [|[e r] history IH]; intros st H; [exact H|].
  cbn [run]. apply IH. destruct r as [file|file| |]; cbn [serve].
  - apply upload_image_effect.
  - apply upload_invoice_effect.
  - unfold App.kpis. destruct (writer_kpi_summary e st); exact H.
  - split; intros _; reflexivity.
Qed.

Lemma rate_within_unit (st : KpiState) :
  (0 <= recycle_kg st)%Q -> (0 <= compost_kg st)%Q -> (0 <= landfill_kg st)%Q ->
  diversion_invariant st ->
  (0 <= diversion_rate st)%Q /\ (diversion_rate st <= 1)%Q.
Proof.
  intros Hr Hc Hl [Hpos Hzero].
  assert (Hd : (0 <= recycle_kg st + compost_kg st)%Q).
  { rewrite <- (Qplus_0_r 0). apply Qplus_le_compat; assumption. }
  assert (Ht : (0 <= total_waste st)%Q).
  { unfold total_waste. rewrite <- (Qplus_0_r 0).
    apply Qplus_le_compat; assumption. }
  apply Qle_lteq in Ht. destruct Ht as [Ht|Ht].
  - rewrite (Hpos Ht). split.
    + apply Qle_shift_div_l; [exact Ht|]. rewrite Qmult_0_l. exact Hd.
    + apply Qle_shift_div_r; [exact Ht|]. rewrite Qmult_1_l.
      unfold total_waste. rewrite <- (Qplus_0_r (recycle_kg st + compost_kg st)) at 1.
      apply Qplus_le_compat; [apply Qle_refl|exact Hl].
  - symmetry in Ht. rewrite (Hzero Ht). split; [apply Qle_refl|discriminate].
Qed.

End Histories.

(** X8: an image submission adds 0.07 kg to recycle_kg and 0.15 kg to
    landfill_kg, an invoice submission adds 15.2 kg to recycle_kg and 8.7 kg
    to landfill_kg, and neither touches compost_kg: the amounts do not
    depend on the uploaded file or on what the external services answer. *)
Theorem submission_effect_is_fixed (e : Ext) (file : Upload) (st : KpiState) :
  ((recycle_kg (snd (App.upload_image e file st)) == recycle_kg st + 0.07)%Q /\
   compost_kg (snd (App.upload_image e file st)) = compost_kg st /\
   (landfill_kg (snd (App.upload_image e file st)) == landfill_kg st + 0.15)%Q) /\
  ((recycle_kg (snd (App.upload_invoice e file st)) == recycle_kg st + 15.2)%Q /\
   compost_kg (snd (App.upload_invoice e file st)) = compost_kg st /\
   (landfill_kg (snd (App.upload_invoice e file st)) == landfill_kg st + 8.7)%Q).
Proof.
  destruct (upload_image_effect e file st) as (H1 & H2 & H3 & _).
  destruct (upload_invoice_effect e file st) as (H4 & H5 & H6 & _).
  auto 10.
Qed.

(** X9: after any history of requests from the initial state, with a images
    and b invoices submitted since the last reset, recycle_kg is
    0.07 a + 15.2 b, landfill_kg is 0.15 a + 8.7 b and compost_kg is 0. *)
Theorem totals_after_history (history : list (Ext * request)) :
  let st := run history kpi_zero in
  let n := submissions history 0 0 in
  (recycle_kg st == 0.07 * count (fst n) + 15.2 * count (snd n))%Q /\
  (compost_kg st == 0)%Q /\
  (landfill_kg st == 0.15 * count (fst n) + 8.7 * count (snd n))%Q.
Proof. apply run_totals; reflexivity. Qed.

(** X10: in every state reached from the initial state the diversion
    invariant holds and the diversion rate lies between 0 and 1. *)
Theorem reachable_rate_within_unit (history : list (Ext * request)) :
  let st := run history kpi_zero in
  diversion_invariant st /\
  (0 <= diversion_rate st)%Q /\ (diversion_rate st <= 1)%Q.
Proof.
  intros st.
  assert (Hinv : diversion_invariant st).
  { apply run_invariant. split; intros _; reflexivity. }
  split; [exact Hinv|].
  destruct (run_totals history kpi_zero 0 0) as (Hr & Hc & Hl); try reflexivity.
  fold st in Hr, Hc, Hl.
  set (n := submissions history 0 0) in *.
  pose proof (count_nonneg (fst n)). pose proof (count_nonneg (snd n)).
  apply rate_within_unit; [| | |exact Hinv].
  - rewrite Hr. rewrite <- (Qplus_0_r 0).
    apply Qplus_le_compat; apply Qmult_le_0_compat; auto; discriminate.
  - rewrite Hc. apply Qle_refl.
  - rewrite Hl. rewrite <- (Qplus_0_r 0).
    apply Qplus_le_compat; apply Qmult_le_0_compat; auto; discriminate.
Qed.

(** X11: [insert_waste_events] returns normally only when every row has a
    "source"; the items of [upload_image] have none, so for them no insert
    is ever executed: the call raises KeyError as soon as the connection is
    open, whatever the warehouse would answer. *)
Theorem waste_events_need_source (e : Ext) :
  (forall rows, returns_normally (insert_waste_events e rows) ->
                forallb has_source rows = true) /\
  insert_waste_events e App.mock_items
  = match sf_connect e with
    | Ok _ => Raise KeyError
    | Raise x => Raise x
    end.
Proof.
  split; [|unfold insert_waste_events; destruct (sf_connect e); reflexivity].
  intros rows [[] H]. unfold insert_waste_events in H.
  destruct (sf_connect e) as [[]|x]; [|discriminate]. cbn [bind] in H.
  induction rows as [|r rows IH]; [reflexivity|].
  cbn [for_each forallb] in *. unfold has_source at 1.
  destruct (source r) as [s|]; [|discriminate]. cbn [bind] in H.
  destruct (sf_execute_waste_event e s r) as [[]|x]; [|discriminate].
  cbn [bind] in H. rewrite (IH H). reflexivity.
Qed.

(** * The packaged copy *)

Lemma parse_invoice_text_never_raises_aux (txt : text) :
  exists p, parse_invoice_text txt = Ok p.
Proof.
  destruct (parse_invoice_text_fields txt) as (ls & Ep). eexists. exact Ep.
Qed.

(** X12: in the packaged copy an invoice submission fails exactly when the
    storage put or the warehouse insert raises.  The OCR step never fails the
    request: when it raises, the fixed text is parsed instead, which gives
    period "2025-09", vendor "GreenCity" and the two lines recycling 520 and
    landfill 260, each with its cost equal to its weight. *)
Theorem packaged_invoice_failures (e : Ext) (file : Upload) :
  exists txt p,
    ApiFunction.ocr_text e (body file) = Ok txt /\
    parse_invoice_text txt = Ok p /\
    ApiFunction.upload_invoice e file
    = match s3_put_object e (object_key "invoices/" e file) (body file)
              (content_type file) with
      | Raise x => Raise x
      | Ok _ =>
          match insert_invoice_lines e (period p) (vendor p) (lines p) with
          | Raise x => Raise x
          | Ok _ => Ok (App.mkInvoiceResponse true p)
          end
      end /\
    (forall x, textract_detect_document_text e (body file) = Raise x ->
               p = mkParsed (str "2025-09") (str "GreenCity")
                     [mkLine "recycling" 520 520; mkLine "landfill" 260 260]).
Proof.
  assert (Ho : exists txt, ApiFunction.ocr_text e (body file) = Ok txt /\
                 (forall x, textract_detect_document_text e (body file) = Raise x ->
                            txt = ApiFunction.fallback_text)).
  { unfold ApiFunction.ocr_text.
    destruct (textract_detect_document_text e (body file)) as [tex|x].
    - cbn [bind]. destruct (ApiFunction.line_texts tex); cbn [bind try_except];
        eexists; split; try reflexivity; discriminate.
    - cbn [bind try_except]. eexists. split; reflexivity. }
  destruct Ho as (txt & Et & Hf).
  destruct (parse_invoice_text_never_raises_aux txt) as [p Ep].
  exists txt, p. split; [exact Et|]. split; [exact Ep|]. split.
  - unfold ApiFunction.upload_invoice.
    destruct (s3_put_object e (object_key "invoices/" e file) (body file)
                (content_type file)); [|reflexivity].
    cbn [bind]. rewrite Et. cbn [bind]. rewrite Ep. cbn [bind].
    destruct (insert_invoice_lines e (period p) (vendor p) (lines p));
      reflexivity.
  - intros x Hx. rewrite (Hf x Hx) in Ep.
    assert (E : parse_invoice_text ApiFunction.fallback_text
                = Ok (mkParsed (str "2025-09") (str "GreenCity")
                        [mkLine "recycling" 520 520; mkLine "landfill" 260 260]))
      by (vm_compute; reflexivity).
    rewrite E in Ep. injection Ep as <-. reflexivity.
Qed.

Section BracketSlice.

Lemma find_from_lacks (c : ascii) (pre rest : text) (i : Z) :
  lacks c pre = true ->
  find_from c (pre ++ rest) i = find_from c rest (i + Z.of_nat (List.length pre)).
Proof.
  revert i. induction pre as [|x pre IH]; intros i H.
  - simpl. f_equal. lia.
  - cbn [lacks forallb] in H. apply andb_true_iff in H. destruct H as [Hx H].
    apply negb_true_iff in Hx. cbn [app find_from]. rewrite Hx.
    rewrite (IH (i + 1)%Z H). f_equal. cbn [List.length]. lia.
Qed.

Lemma find_from_absent (c : ascii) (s : text) (i : Z) :
  lacks c s = true -> find_from c s i = (-1)%Z.
Proof.
  intros H. rewrite <- (app_nil_r s). rewrite (find_from_lacks c s [] i H).
  reflexivity.
Qed.

Lemma rfind_from_lacks (c : ascii) (s : text) (i best : Z) :
  lacks c s = true -> rfind_from c s i best = best.
Proof.
  revert i best. induction s as [|x s IH]; intros i best H; [reflexivity|].
  cbn [lacks forallb] in H. apply andb_true_iff in H. destruct H as [Hx H].
  apply negb_true_iff in Hx. cbn [rfind_from]. rewrite Hx. apply IH, H.
Qed.

Lemma rfind_from_last (c : ascii) (pre post : text) (i best : Z) :
  lacks c post = true ->
  rfind_from c (pre ++ c :: post) i best = (i + Z.of_nat (List.length pre))%Z.
Proof.
  intros H. revert i best. induction pre as [|x pre IH]; intros i best.
  - cbn [app rfind_from]. rewrite Ascii.eqb_refl.
    rewrite (rfind_from_lacks c post _ _ H). simpl. lia.
  - cbn [app rfind_from]. rewrite IH. cbn [List.length]. lia.
Qed.

Lemma firstn_skipn_middle (a b c : text) :
  firstn (List.length b) (skipn (List.length a) (a ++ b ++ c)) = b.
Proof.
  rewrite skipn_app, skipn_all, Nat.sub_diag. simpl.
  rewrite firstn_app, firstn_all, Nat.sub_diag. simpl. apply app_nil_r.
Qed.

Lemma json_array_text_brackets (pre mid post : text) :
  lacks "["%char pre = true -> lacks "]"%char post = true ->
  json_array_text (pre ++ "["%char :: mid ++ "]"%char :: post)
  = "["%char :: mid ++ ["]"%char].
Proof.
  intros Hpre Hpost. unfold json_array_text, find, rfind.
  rewrite (find_from_lacks _ pre _ 0 Hpre). cbn [find_from].
  rewrite Ascii.eqb_refl.
  replace (pre ++ "["%char :: mid ++ "]"%char :: post)
    with ((pre ++ "["%char :: mid) ++ "]"%char :: post)
    by (rewrite <- app_assoc; reflexivity).
  rewrite (rfind_from_last _ _ post 0 (-1) Hpost).
  unfold pyslice, clip.
  rewrite ?length_app. cbn [List.length]. rewrite ?length_app.
  cbn [List.length].
  set (a := List.length pre). set (m := List.length mid).
  set (q := List.length post).
  destruct (Z.ltb_spec (0 + Z.of_nat a) 0); [lia|].
  destruct (Z.ltb_spec (0 + Z.of_nat (a + S m) + 1) 0); [lia|].
  rewrite !Z.min_l by lia.
  replace (Z.to_nat (0 + Z.of_nat (a + S m) + 1 - (0 + Z.of_nat a)))
    with (List.length ("["%char :: mid ++ ["]"%char]))
    by (cbn [List.length]; rewrite length_app; cbn [List.length]; fold m; lia).
  replace (Z.to_nat (0 + Z.of_nat a)) with (List.length pre) by (fold a; lia).
  replace ((pre ++ "["%char :: mid) ++ "]"%char :: post)
    with (pre ++ ("["%char :: mid ++ ["]"%char]) ++ post).
  - apply firstn_skipn_middle.
  - rewrite <- !app_assoc. cbn [app]. rewrite <- app_assoc. reflexivity.
Qed.

Lemma json_array_text_no_close (txt : text) :
  lacks "]"%char txt = true -> json_array_text txt = [].
Proof.
  intros H. unfold json_array_text, rfind.
  rewrite (rfind_from_lacks _ txt 0 (-1) H).
  unfold pyslice. change (clip (Z.of_nat (List.length txt)) (-1 + 1)) with
    (Z.min 0 (Z.of_nat (List.length txt))).
  rewrite Z.min_l by lia.
  assert (0 <= clip (Z.of_nat (List.length txt)) (find "["%char txt))%Z.
  { unfold clip. destruct (Z.ltb_spec (find "["%char txt) 0); lia. }
  replace (Z.to_nat (0 - clip (Z.of_nat (List.length txt)) (find "["%char txt)))
    with 0%nat by lia.
  reflexivity.
Qed.

Lemma json_array_text_only_close (pre : text) :
  lacks "["%char pre = true ->
  json_array_text (pre ++ ["]"%char]) = ["]"%char].
Proof.
  intros H. unfold json_array_text, find, rfind.
  rewrite find_from_absent.
  2:{ unfold lacks. rewrite forallb_app. fold (lacks "["%char pre).
      rewrite H. reflexivity. }
  rewrite (rfind_from_last _ pre [] 0 (-1) eq_refl).
  unfold pyslice, clip. rewrite length_app. cbn [List.length].
  set (a := List.length pre).
  change (-1 <? 0)%Z with true. cbv iota.
  destruct (Z.ltb_spec (0 + Z.of_nat a + 1) 0); [lia|].
  rewrite Z.max_l by lia. rewrite Z.min_l by lia.
  replace (Z.to_nat (0 + Z.of_nat a + 1 - (-1 + Z.of_nat (a + 1)))) with 1%nat by lia.
  replace (Z.to_nat (-1 + Z.of_nat (a + 1))) with (List.length pre) by (fold a; lia).
  rewrite skipn_app, skipn_all, Nat.sub_diag. reflexivity.
Qed.

End BracketSlice.

(** X13: the text that [vision_classify] hands to [json.loads] runs from the
    first "[" to the last "]" of the model's answer, both included; it is
    empty when the answer has no "]"; and when the answer has no "[" but ends
    in its only "]", it is that "]" alone (the -1 of [find] is read as the
    last index). *)
Theorem json_array_text_spec :
  (forall pre mid post,
     lacks "["%char pre = true -> lacks "]"%char post = true ->
     json_array_text (pre ++ "["%char :: mid ++ "]"%char :: post)
     = "["%char :: mid ++ ["]"%char]) /\
  (forall txt, lacks "]"%char txt = true -> json_array_text txt = []) /\
  (forall pre,
     lacks "["%char pre = true -> lacks "]"%char pre = true ->
     json_array_text (pre ++ ["]"%char]) = ["]"%char]).
Proof.
  split; [exact json_array_text_brackets|].
  split; [exact json_array_text_no_close|].
  intros pre H _. apply json_array_text_only_close, H.
Qed.

Lemma json_array_text_spec_witness :
  json_array_text (str "Here you go: [{}] (done)") = str "[{}]" /\
  json_array_text (str "no array here") = [] /\
  json_array_text (str "oops]") = str "]".
Proof.
  destruct json_array_text_spec as (H1 & H2 & H3).
  split; [|split].
  - apply (H1 (str "Here you go: ") (str "{}") (str " (done)")); reflexivity.
  - apply H2. reflexivity.
  - apply (H3 (str "oops")); reflexivity.
Defined.

(** * The vendor after the first label *)

Section VendorAfterLabel.

Lemma first_lits (ci : bool) (lw w rest : text) (g : captures) :
  List.length w = List.length lw ->
  prefix_by (char_eq ci) lw w = true ->
  first (lits ci lw) (w ++ rest) g (w, rest, g).
Proof.
  revert w. induction lw as [|a lw IH]; intros w Hl Hp.
  - destruct w; [|discriminate]. apply first_eps.
  - destruct w as [|c w]; [discriminate|].
    cbn [prefix_by] in Hp. apply andb_true_iff in Hp. destruct Hp as [Hc Hp].
    cbn [lits app]. unfold lit. apply first_seq_chr.
    + unfold char_eq in Hc. destruct ci; exact Hc.
    + apply IH; [simpl in Hl; lia|exact Hp].
Qed.

Lemma lits_mismatch (ci : bool) (a : ascii) (lw : text) (c : ascii) (s : text)
    (g : captures) :
  char_eq ci a c = false -> ways (lits ci (a :: lw)) (c :: s) g = [].
Proof.
  intros H. cbn [lits ways lit]. unfold char_eq in H.
  destruct ci; rewrite H; reflexivity.
Qed.

Lemma first_label (w rest : text) (g : captures) :
  is_label w = true ->
  first (Alt (word true "Invoice") (word true "Vendor")) (w ++ rest) g
        (w, rest, g).
Proof.
  unfold is_label. intros H. apply orb_true_iff in H.
  destruct H as [H|H]; apply andb_true_iff in H; destruct H as [Hl Hp];
    apply Nat.eqb_eq in Hl.
  - apply first_alt_l. apply first_lits; [exact Hl|exact Hp].
  - apply first_alt_r; [|apply first_lits; [exact Hl|exact Hp]].
    destruct w as [|c w]; [discriminate|].
    cbn [prefix_by str list_ascii_of_string] in Hp.
    apply andb_true_iff in Hp. destruct Hp as [Hc _].
    unfold word. cbn [str list_ascii_of_string app].
    apply lits_mismatch. unfold char_eq, eqc_ci in *.
    apply Ascii.eqb_eq in Hc. rewrite <- Hc. reflexivity.
Qed.

Lemma star_greedy_first_end (p : ascii -> bool) (w s : text) :
  forallb p w = true -> ends_outside p s = true ->
  exists tl, star_greedy p (w ++ s) = (w, s) :: tl.
Proof.
  intros Hw Hs. induction w as [|d w IH].
  - destruct s as [|c s]; simpl; [eauto|].
    simpl in Hs. apply negb_true_iff in Hs. rewrite Hs. eauto.
  - simpl in Hw. apply andb_true_iff in Hw. destruct Hw as [Hd Hw].
    simpl. rewrite Hd. destruct (IH Hw) as [tl E]. rewrite E. simpl. eauto.
Qed.

Lemma first_plus_run_end (p : ascii -> bool) (d : ascii) (w s : text)
    (g : captures) :
  p d = true -> forallb p w = true -> ends_outside p s = true ->
  first (plus p) (d :: w ++ s) g (d :: w, s, g).
Proof.
  intros Hd Hw Hs. unfold first, plus. simpl. rewrite Hd. simpl.
  destruct (star_greedy_first_end p w s Hw Hs) as [tl E]. rewrite E. simpl. eauto.
Qed.

Lemma letter_not_separator (c : ascii) :
  is_ascii_letter c = true -> colon_or_space c = false.
Proof.
  unfold is_ascii_letter, colon_or_space, is_space, between.
  set (n := code c). intros H.
  repeat match goal with
         | |- context [?a <=? ?b] => destruct (Nat.leb_spec a b)
         | |- context [?a =? ?b] => destruct (Nat.eqb_spec a b)
         | H : context [?a <=? ?b] |- _ => destruct (Nat.leb_spec a b)
         end; simpl in *; try reflexivity; try discriminate; lia.
Qed.

Lemma first_vendor_re (lbl seps name post : text) :
  is_label lbl = true ->
  seps <> [] -> forallb colon_or_space seps = true ->
  starts_with_letter name = true -> forallb letter_or_blank name = true ->
  ends_outside letter_or_blank post = true ->
  first vendor_re (lbl ++ seps ++ name ++ post) []
        (lbl ++ seps ++ name, post, [(2, name); (1, lbl)]).
Proof.
  intros Hlbl Hn Hseps Hletter Hname Hpost.
  destruct seps as [|s1 seps]; [congruence|].
  destruct name as [|c name]; [discriminate|].
  simpl in Hseps. apply andb_true_iff in Hseps. destruct Hseps as [Hs1 Hseps].
  simpl in Hname. apply andb_true_iff in Hname. destruct Hname as [Hc Hname].
  simpl in Hletter.
  unfold vendor_re.
  apply (first_seq _ _ _ [] lbl ((s1 :: seps) ++ (c :: name) ++ post) [(1, lbl)]
           ((s1 :: seps) ++ c :: name) post [(2, c :: name); (1, lbl)]).
  { apply first_group. apply first_label. exact Hlbl. }
  apply (first_seq _ _ _ [(1, lbl)] (s1 :: seps) ((c :: name) ++ post) [(1, lbl)]
           (c :: name) post [(2, c :: name); (1, lbl)]).
  { change ((s1 :: seps) ++ (c :: name) ++ post)
      with (s1 :: seps ++ c :: name ++ post).
    apply first_plus_run; [exact Hs1|exact Hseps|].
    apply letter_not_separator. exact Hletter. }
  apply first_group. change ((c :: name) ++ post) with (c :: name ++ post).
  apply first_plus_run_end; assumption.
Qed.

End VendorAfterLabel.

(** X14: when the first "Invoice"/"Vendor" label of the text is followed by
    one or more colons or white-space characters and then by a name that
    starts with a letter, consists of letters and blanks and ends where the
    text ends or another kind of character follows, the vendor returned is
    that name without its trailing blanks. *)
Theorem vendor_after_first_label (pre lbl seps name post : text) :
  is_label lbl = true ->
  seps <> [] -> forallb colon_or_space seps = true ->
  starts_with_letter name = true -> forallb letter_or_blank name = true ->
  ends_outside letter_or_blank post = true ->
  absent_before label_at pre (lbl ++ seps ++ name ++ post) = true ->
  exists p,
    parse_invoice_text (pre ++ lbl ++ seps ++ name ++ post) = Ok p /\
    vendor p = strip name.
Proof.
  intros Hlbl Hn Hseps Hletter Hname Hpost Ha.
  destruct (parse_invoice_text_fields (pre ++ lbl ++ seps ++ name ++ post))
    as (ls & Ep).
  eexists. split; [exact Ep|]. simpl vendor.
  rewrite (search_skip _ _ vendor_re_needs_label pre _ Ha).
  rewrite (first_search_from vendor_re _ _ _ _ _
             (first_vendor_re lbl seps name post Hlbl Hn Hseps Hletter Hname Hpost)).
  reflexivity.
Qed.

Lemma vendor_after_first_label_witness :
  exists p,
    parse_invoice_text (str "Period 2025-03
VENDOR:  Green City Hauling  
Landfill 3 tons") = Ok p /\
    vendor p = str "Green City Hauling".
Proof.
  apply (vendor_after_first_label (str "Period 2025-03
") (str "VENDOR") (str ":  ") (str "Green City Hauling  ") (str "
Landfill 3 tons")).
  - reflexivity.
  - discriminate.
  - reflexivity.
  - reflexivity.
  - reflexivity.
  - reflexivity.
  - vm_compute. reflexivity.
Defined.

Lemma waste_events_need_source_witness :
  forallb has_source [sourced_item] = true.
Proof.
  destruct (waste_events_need_source ext_ocr_down) as [H _].
  apply H. exists tt. reflexivity.
Defined.

Lemma packaged_invoice_failures_witness :
  ApiFunction.upload_invoice ext_ocr_down some_upload
  = Ok (App.mkInvoiceResponse true
          (mkParsed (str "2025-09") (str "GreenCity")
             [mkLine "recycling" 520 520; mkLine "landfill" 260 260])).
Proof.
  destruct (packaged_invoice_failures ext_ocr_down some_upload)
    as (txt & p & _ & _ & E & Hp).
  rewrite E. rewrite (Hp (ExternalError "ocr") eq_refl). reflexivity.
Defined.


(** * Weights in tons *)

Section Tons.














End Tons.


